(** * lava: checktype catalog, build cache, check generation and report store

    A shallow embedding of the decision logic of
      - internal/checktypes/checktypes.go  (Accepts, NewCatalog, isDir),
      - internal/checktype/build           (InspectImage, NewImage,
                                            Code.Build, Code.isModified,
                                            lastModified),
      - internal/containers, internal/dockerutil (ImageLabels, BuildImage),
      - internal/engine/store.go           (reportStore),
    together with the properties the specification states about them.

    Go values are modelled as follows.  A Go [error] is a tree of wrapped
    errors; a function returning [(T, error)] returns a [result T]; a Go
    map is a reference to a cell of a heap of finite maps, so that copies
    and aliases are told apart; the container engine and the file system
    are explicit state. *)

From Stdlib Require Import ZArith String Ascii List Lia.
From stdpp Require Import base option list gmap strings pretty fin_maps.

Open Scope string_scope.
Open Scope list_scope.

(** ** Errors and results *)

(** Go error values.  [ErrAssetType] and [ErrVarType] are the input error
    and the validation error of section 7 of the specification: a target
    whose asset type is missing or unknown, and a required variable that
    is not a string.  [ErrWrap] is [fmt.Errorf] with one [%w] verb,
    [ErrWrap2] is [fmt.Errorf("%w: %w", a, b)], [ErrNew] is an error that
    wraps nothing ([errors.New], [fmt.Errorf] without [%w], or an error of
    a library outside the repository). *)
Inductive error : Type :=
  | ErrMissingCatalog
  | ErrMalformedCatalog
  | ErrInvalidURL
  | ErrNoChecktypeImage (image : string)
  | ErrAssetType (tag : string)
  | ErrVarType
  | ErrNew (msg : string)
  | ErrWrap (msg : string) (inner : error)
  | ErrWrap2 (outer inner : error).

Inductive result (A : Type) : Type :=
  | Ok (a : A)
  | Err (e : error).
Arguments Ok {A} a.
Arguments Err {A} e.


(** [errors.As(err, &ErrNoChecktypeImage{})]: some error of the chain is
    an [ErrNoChecktypeImage]. *)
Fixpoint errors_As_NoChecktypeImage (e : error) : bool :=
  match e with
  | ErrNoChecktypeImage _ => true
  | ErrWrap _ inner => errors_As_NoChecktypeImage inner
  | ErrWrap2 a b => errors_As_NoChecktypeImage a || errors_As_NoChecktypeImage b
  | _ => false
  end.

(** ** Go maps as heap cells *)

(** A value of a Go map type is [nil] or a reference to a map object.
    Assigning a map, passing it or storing it in a struct copies the
    reference only. *)
Module GoMap.

Definition loc := positive.
Definition ref := option loc.

Section heap.
Context {V : Type}.

(** The entries a reference denotes; a nil map has none. *)
Definition deref (h : gmap loc (gmap string V)) (r : ref) : gmap string V :=
  match r with
  | None => ∅
  | Some l => default ∅ (h !! l)
  end.

(** [make(map[string]V)]. *)
Definition make (h : gmap loc (gmap string V)) : loc * gmap loc (gmap string V) :=
  let l := fresh (dom h) in (l, <[l := ∅]> h).

(** [m[k] = v]; on a nil map the assignment panics and no map
    changes. *)
Definition set (h : gmap loc (gmap string V)) (r : ref) (k : string) (v : V)
  : gmap loc (gmap string V) :=
  match r with
  | None => h
  | Some l => <[l := <[k := v]> (deref h r)]> h
  end.

(** [delete(m, k)]; a no-op on a nil map. *)
Definition del (h : gmap loc (gmap string V)) (r : ref) (k : string)
  : gmap loc (gmap string V) :=
  match r with
  | None => h
  | Some l => <[l := delete k (deref h r)]> h
  end.

(** [clear(m)]. *)
Definition clear (h : gmap loc (gmap string V)) (r : ref)
  : gmap loc (gmap string V) :=
  match r with
  | None => h
  | Some l => <[l := ∅]> h
  end.

(** [maps.Copy(dst, src)]: every entry of [src] is set in [dst]. *)
Definition copy (h : gmap loc (gmap string V)) (dst : loc) (src : ref)
  : gmap loc (gmap string V) :=
  map_fold (fun k v acc => set acc (Some dst) k v) h (deref h src).

(** [maps.Clone(m)]: nil for nil, otherwise a new map object with the
    same entries (a shallow copy). *)
Definition clone (h : gmap loc (gmap string V)) (r : ref)
  : ref * gmap loc (gmap string V) :=
  match r with
  | None => (None, h)
  | Some _ =>
      let l := fresh (dom h) in (Some l, <[l := deref h r]> h)
  end.

(** Every reference held is to an allocated object. *)
Definition allocated (h : gmap loc (gmap string V)) (r : ref) : Prop :=
  match r with
  | None => True
  | Some l => is_Some (h !! l)
  end.

End heap.

End GoMap.

(** ** State and error monad

    Code that talks to the container engine or to the file system is a
    function of the state of that world which returns a result and the
    new state.  An error ends the computation where it is raised. *)
Definition M (W A : Type) : Type := W -> result A * W.

Definition m_ret {W A} (a : A) : M W A := fun w => (Ok a, w).
Definition m_fail {W A} (e : error) : M W A := fun w => (Err e, w).
Definition m_lift {W A} (r : result A) : M W A := fun w => (r, w).
Definition m_bind {W A B} (c : M W A) (k : A -> M W B) : M W B :=
  fun w =>
    match c w with
    | (Ok a, w') => k a w'
    | (Err e, w') => (Err e, w')
    end.

Declare Scope go_scope.
Delimit Scope go_scope with go.
Notation "'let*' x ':=' c 'in' k" := (m_bind c (fun x => k))
  (at level 10, x pattern, c at level 100, k at level 200) : go_scope.

(** ** Package checktypes *)

Module Checktypes.

(** A value of Go's [any] ([interface{}]) as a decoded catalog, manifest
    or configuration file can hold it. *)
#[warnings="-register-all"] Inductive any : Type :=
  | ANil
  | ABool (b : bool)
  | AInt (n : Z)
  | AString (s : string)
  | ASlice (l : list any).

(** Asset types are strings in Go ([types.AssetType]). *)
Definition AssetType := string.

(** Modelled from the spec: the checktype descriptor.  The struct
    [checkcatalog.Checktype] is declared outside the repository; its
    fields are those the sources read and write ([Image.Checktype], the
    tests of the engine), with the required variables as the
    heterogeneous list of section 3 and the options as a Go map. *)
Record Checktype : Type := mkChecktype {
  Name : string;
  Description : string;
  Timeout : Z;
  Image : string;
  Options : GoMap.ref;
  RequiredVars : list any;
  Assets : list string
}.

(** [Accepts]: the range loop over [ct.Assets] with its early
    return. *)
Fixpoint accepts_loop (assets : list string) (at_ : AssetType) : bool :=
  match assets with
  | [] => false
  | accepted :: rest =>
      if String.eqb accepted at_ then true else accepts_loop rest at_
  end.

Definition Accepts (ct : Checktype) (at_ : AssetType) : bool :=
  accepts_loop (Assets ct) at_.

(** [type Catalog map[string]checkcatalog.Checktype]. *)
Abbreviation Catalog := (gmap string Checktype).

(** The fields of [url.URL] that the package reads. *)
Record URL : Type := mkURL { Scheme : string; Path : string }.

(** Outcome of [os.Stat]. *)
Inductive stat_result : Type :=
  | StatNotExist
  | StatErr (e : error)
  | StatInfo (is_dir : bool).

(** What [NewCatalog] calls outside the package: [url.Parse], [os.Stat],
    [build.Code.Build], [urlutil.Get] and [json.Unmarshal] into
    [struct { Checktypes []Checktype }]. *)
Class Env : Type := {
  World : Type;
  url_Parse : string -> result URL;
  os_Stat : string -> World -> stat_result;
  code_Build : string -> M World Checktype;
  urlutil_Get : URL -> M World (list Byte.byte);
  json_Unmarshal : list Byte.byte -> result (list Checktype)
}.

Section catalog.
Context `{Env}.
Local Open Scope go_scope.

(** [isDir] reports whether a URL points to a local existing
    directory. *)
Definition isDir (u : URL) (w : World) : result bool :=
  if negb (String.eqb (Scheme u) "") then Ok false
  else
    match os_Stat (Path u) w with
    | StatNotExist => Ok false
    | StatErr e => Err e
    | StatInfo d => Ok d
    end.

(** [checktypes[checktype.Name] = checktype]. *)
Definition put (checktypes : Catalog) (ct : Checktype) : Catalog :=
  <[Name ct := ct]> checktypes.

(** The body of [for _, u := range urls] in [NewCatalog]. *)
Fixpoint NewCatalog_loop (urls : list string) (checktypes : Catalog)
  : M World Catalog :=
  match urls with
  | [] => m_ret checktypes
  | u :: rest =>
      match url_Parse u with
      | Err e => m_fail (ErrWrap2 ErrInvalidURL e)
      | Ok parsedURL =>
          let* d := (fun w => (isDir parsedURL w, w)) in
          if (d : bool) then
            let* checktype := code_Build (Path parsedURL) in
            NewCatalog_loop rest (put checktypes checktype)
          else
            let* data := urlutil_Get parsedURL in
            match json_Unmarshal data with
            | Err e => m_fail (ErrWrap2 ErrMalformedCatalog e)
            | Ok decData =>
                NewCatalog_loop rest (foldl put checktypes decData)
            end
      end
  end.

Definition NewCatalog (urls : list string) : M World Catalog :=
  if Nat.eqb (length urls) 0 then m_fail ErrMissingCatalog
  else NewCatalog_loop urls ∅.

(** The descriptors one source produces, as the specification speaks
    of them: the checktype built from a directory, or the list a
    remote catalog decodes to. *)
Definition source_descriptors (u : string) : M World (list Checktype) :=
  match url_Parse u with
  | Err e => m_fail (ErrWrap2 ErrInvalidURL e)
  | Ok parsedURL =>
      let* d := (fun w => (isDir parsedURL w, w)) in
      if (d : bool) then
        let* checktype := code_Build (Path parsedURL) in
        m_ret [checktype]
      else
        let* data := urlutil_Get parsedURL in
        match json_Unmarshal data with
        | Err e => m_fail (ErrWrap2 ErrMalformedCatalog e)
        | Ok decData => m_ret decData
        end
  end.

(** The descriptors of all sources, in the order of the sources. *)
Fixpoint sources_descriptors (urls : list string) : M World (list Checktype) :=
  match urls with
  | [] => m_ret []
  | u :: rest =>
      let* ds := source_descriptors u in
      let* dss := sources_descriptors rest in
      m_ret (ds ++ dss)
  end.

(** The merge policy in the words of the specification: the last
    descriptor with a given name is the one the catalog holds. *)
Definition last_named (n : string) (ds : list Checktype) : option Checktype :=
  last (filter (fun ct => Name ct = n) ds).

End catalog.

End Checktypes.

(** ** The fragment of Go's [time] package the build cache uses

    A [time.Time] is an instant, here the number of nanoseconds since the
    Unix epoch; the local zone is taken to be UTC, so that a file's
    modification time is formatted with the zone [UTC].  The layout
    [time.RFC822] is ["02 Jan 06 15:04 MST"]: day, month name, two-digit
    year, hour and minute, no seconds. *)
Module GoTime.

Local Open Scope Z_scope.

Definition Time := Z.

(** [t.Equal(u)]: the same instant. *)
Definition Equal (t u : Time) : bool := Z.eqb t u.

(** [t.After(u)]. *)
Definition After (t u : Time) : bool := Z.ltb u t.

Definition nanos_per_second : Z := 1000000000.
Definition nanos_per_minute : Z := 60 * nanos_per_second.
Definition nanos_per_day : Z := 86400 * nanos_per_second.

(** The zero [time.Time{}]: January 1, year 1, 00:00:00 UTC. *)
Definition zero : Time := (-62135596800) * nanos_per_second.

(** Proleptic Gregorian calendar: the civil date of a day number counted
    from 1970-01-01, and back. *)
Definition civil_from_days (z0 : Z) : Z * Z * Z :=
  let z := z0 + 719468 in
  let era := z / 146097 in
  let doe := z - era * 146097 in
  let yoe := (doe - doe / 1460 + doe / 36524 - doe / 146096) / 365 in
  let doy := doe - (365 * yoe + yoe / 4 - yoe / 100) in
  let mp := (5 * doy + 2) / 153 in
  let d := doy - (153 * mp + 2) / 5 + 1 in
  let m := if mp <? 10 then mp + 3 else mp - 9 in
  let y := yoe + era * 400 in
  ((if m <=? 2 then y + 1 else y), m, d).

Definition days_from_civil (y0 m d : Z) : Z :=
  let y := if m <=? 2 then y0 - 1 else y0 in
  let era := y / 400 in
  let yoe := y - era * 400 in
  let mp := if 2 <? m then m - 3 else m + 9 in
  let doy := (153 * mp + 2) / 5 + d - 1 in
  let doe := yoe * 365 + yoe / 4 - yoe / 100 + doy in
  era * 146097 + doe - 719468.

Definition month_names : list string :=
  ["Jan"; "Feb"; "Mar"; "Apr"; "May"; "Jun";
   "Jul"; "Aug"; "Sep"; "Oct"; "Nov"; "Dec"].

Definition digit (n : Z) : ascii := ascii_of_nat (48 + Z.to_nat (n mod 10))%nat.

Definition two_digits (n : Z) : string :=
  String (digit (n / 10)) (String (digit n) EmptyString).

(** [t.Format(time.RFC822)]. *)
Definition Format_RFC822 (t : Time) : string :=
  let days := t / nanos_per_day in
  let minutes := (t mod nanos_per_day) / nanos_per_minute in
  let '(y, m, d) := civil_from_days days in
  two_digits d +:+ " " +:+ nth (Z.to_nat (m - 1)) month_names "" +:+ " "
    +:+ two_digits (y mod 100) +:+ " "
    +:+ two_digits (minutes / 60) +:+ ":" +:+ two_digits (minutes mod 60)
    +:+ " UTC".

Definition digit_value (c : ascii) : option Z :=
  let n := Z.of_nat (nat_of_ascii c) in
  if (48 <=? n) && (n <=? 57) then Some (n - 48) else None.

Definition number2 (a b : ascii) : option Z :=
  match digit_value a, digit_value b with
  | Some x, Some y => Some (10 * x + y)
  | _, _ => None
  end.

Fixpoint month_index (name : string) (names : list string) (i : Z) : option Z :=
  match names with
  | [] => None
  | n :: rest => if String.eqb n name then Some i else month_index name rest (i + 1)
  end.

Definition is_leap (y : Z) : bool :=
  (y mod 4 =? 0) && (negb (y mod 100 =? 0) || (y mod 400 =? 0)).

Definition days_in (m y : Z) : Z :=
  if m =? 2 then (if is_leap y then 29 else 28)
  else if (m =? 4) || (m =? 6) || (m =? 9) || (m =? 11) then 30 else 31.

(** [time.Parse(time.RFC822, s)] on the text [Format_RFC822] writes: two
    digits of day, a month name, two digits of year (69 to 99 are 1969 to
    1999, 00 to 68 are 2000 to 2068), hour, minute and the zone [UTC].
    [None] is a parse error.  Go's parser also reads some other
    spellings (a one-digit hour, other zone names); nothing below depends
    on which texts besides these are read. *)
Definition fields_RFC822 (s : string) : option (Z * Z * Z * Z * Z) :=
  match list_ascii_of_string s with
  | [d1; d2; s1; m1; m2; m3; s2; y1; y2; s3; h1; h2; c1; n1; n2; s4; z1; z2; z3] =>
      if negb (String.eqb (string_of_list_ascii [s1; s2; s3; c1; s4; z1; z2; z3])
                          "   : UTC")
      then None
      else
        match number2 d1 d2, month_index (string_of_list_ascii [m1; m2; m3]) month_names 1,
              number2 y1 y2, number2 h1 h2, number2 n1 n2 with
        | Some d, Some m, Some yy, Some hh, Some mm => Some (d, m, yy, hh, mm)
        | _, _, _, _, _ => None
        end
  | _ => None
  end.

Definition Parse_RFC822 (s : string) : option Time :=
  match fields_RFC822 s with
  | Some (d, m, yy, hh, mm) =>
      let y := if 69 <=? yy then 1900 + yy else 2000 + yy in
      if (d <? 1) || (days_in m y <? d) || (24 <=? hh) || (60 <=? mm)
      then None
      else Some ((days_from_civil y m d * 1440 + hh * 60 + mm) * nanos_per_minute)
  | None => None
  end.

End GoTime.

(** ** Package build: checktype images and the build cache *)

Module Build.

Import Checktypes.

Definition lastModifiedTimeLabel : string := "com.adevinta.vulcan.last_modified_file".
Definition checktypeNameLabel : string := "com.adevinta.vulcan.name".
Definition checktypeManifest : string := "com.adevinta.vulcan.manifest".

(** [map[string]string], the labels of an image. *)
Abbreviation Labels := (gmap string string).

(** The manifest of a checktype.  Its type, its parser and the name of
    the manifest file are declared in a file of the package that is not
    among the sources; the functions below take them as they come. *)
Class ManifestAPI : Type := {
  Manifest : Type;
  ManifestFile : string;
  ParseManifest : string -> result Manifest;
  UnmarshalOptions : Manifest -> result GoMap.ref;
  AssetTypes_Strings : Manifest -> result (list string);
  Manifest_Description : Manifest -> string;
  Manifest_Timeout : Manifest -> Z;
  Manifest_RequiredVars : Manifest -> list string
}.

(** An entry of the file system: a file with its modification time and
    content, a directory with its entries, or an entry that cannot be
    read ([d.Info], [ReadDir], [os.Open] or [os.ReadFile] fail on it). *)
#[warnings="-register-all"] Inductive Node : Type :=
  | File (name : string) (mtime : GoTime.Time) (content : string)
  | Dir (name : string) (entries : list Node)
  | Unreadable (name : string) (is_dir : bool).

Definition node_name (n : Node) : string :=
  match n with
  | File name _ _ => name
  | Dir name _ => name
  | Unreadable name _ => name
  end.

(** A request received by the engine through [cli.ImageBuild]. *)
Record BuildRequest : Type := mkBuildRequest {
  req_tags : list string;
  req_labels : Labels;
  req_tar : list (string * string)
}.

(** The world [Code.Build] runs in: whether a client can be made, whether
    the engine answers [ImageList] and accepts builds, the images it
    holds (reference and labels), the file system by path, the
    directories in which [go build] fails, and the record of the build
    requests the engine has received. *)
Record World : Type := mkWorld {
  client_err : option error;
  list_err : option error;
  build_err : option error;
  images : list (string * Labels);
  fs : gmap string Node;
  gobuild_err : gmap string error;
  build_calls : list BuildRequest
}.

Definition with_engine (w : World) (imgs : list (string * Labels))
    (calls : list BuildRequest) : World :=
  {| client_err := client_err w; list_err := list_err w; build_err := build_err w;
     images := imgs; fs := fs w; gobuild_err := gobuild_err w;
     build_calls := calls |}.


(** Image metadata of a checktype. *)
Record Image `{ManifestAPI} : Type := mkImage {
  Image_Name : string;
  Image_ChecktypeName : string;
  Image_Manifest : Manifest;
  Image_LastModified : GoTime.Time
}.

(** [type Code string]: the directory of a checktype. *)
Definition Code := string.

(** [path.Base]. *)
Definition is_slash (c : ascii) : bool := Ascii.eqb c "/"%char.

Fixpoint drop_slashes (l : list ascii) : list ascii :=
  match l with
  | c :: rest => if is_slash c then drop_slashes rest else l
  | [] => []
  end.

Fixpoint take_element (l : list ascii) : list ascii :=
  match l with
  | c :: rest => if is_slash c then [] else c :: take_element rest
  | [] => []
  end.

Definition path_Base (p : string) : string :=
  if String.eqb p "" then "."
  else
    match drop_slashes (rev (list_ascii_of_string p)) with
    | [] => "/"
    | l => string_of_list_ascii (rev (take_element l))
    end.

(** [path.Join] of a directory and a name, for the clean paths used
    here. *)
Definition path_Join (dir name : string) : string :=
  if String.eqb dir "" then name else dir +:+ "/" +:+ name.

(** [Code.name] and [Code.imageName]. *)
Definition name (c : Code) : string := path_Base c.

Definition imageName (c : Code) : string := name c +:+ "-" +:+ "local".

(** The callback of [filepath.WalkDir] in [lastModified], run over a
    tree: [None] is an error of the walk, [latest] is the newest
    modification time seen so far.  A directory named [.git] is
    skipped before it is read. *)
Fixpoint walk (n : Node) (latest : option GoTime.Time) : option (option GoTime.Time) :=
  match n with
  | File _ modtime _ =>
      match latest with
      | None => Some (Some modtime)
      | Some l => if GoTime.After modtime l then Some (Some modtime) else Some latest
      end
  | Dir dname entries =>
      if String.eqb dname ".git" then Some latest
      else
        (fix walk_entries (es : list Node) (latest : option GoTime.Time) :=
           match es with
           | [] => Some latest
           | e :: rest =>
               match walk e latest with
               | None => None
               | Some latest' => walk_entries rest latest'
               end
           end) entries latest
  | Unreadable dname is_dir =>
      if is_dir && String.eqb dname ".git" then Some latest else None
  end.

(** [lastModified]: the newest modification time of the files of the
    tree rooted at [dir]. *)
Definition lastModified (dir : string) (w : World) : result GoTime.Time :=
  match fs w !! dir with
  | None => Err (ErrNew "error walking through the dir")
  | Some root =>
      match walk root None with
      | None => Err (ErrNew "error walking through the dir")
      | Some None => Err (ErrNew "the dir is empty")
      | Some (Some latest) => Ok latest
      end
  end.

(** [addDir]: the files of a tree with their paths in the archive. *)
Fixpoint addNode (currentPath : string) (n : Node) : result (list (string * string)) :=
  match n with
  | File fname _ content => Ok [(path_Join currentPath fname, content)]
  | Dir dname entries =>
      (fix addDir (es : list Node) : result (list (string * string)) :=
         match es with
         | [] => Ok []
         | e :: rest =>
             match addNode (path_Join currentPath dname) e with
             | Err err => Err err
             | Ok files =>
                 match addDir rest with
                 | Err err => Err err
                 | Ok more => Ok (files ++ more)
                 end
             end
         end) entries
  | Unreadable _ _ => Err (ErrNew "open")
  end.

Fixpoint addDir (currentPath : string) (finfo : list Node) : result (list (string * string)) :=
  match finfo with
  | [] => Ok []
  | file :: rest =>
      match addNode currentPath file with
      | Err err => Err err
      | Ok files =>
          match addDir currentPath rest with
          | Err err => Err err
          | Ok more => Ok (files ++ more)
          end
      end
  end.

(** [buildTarFromDir]. *)
Definition buildTarFromDir (dirPath : string) (w : World) : result (list (string * string)) :=
  match fs w !! dirPath with
  | Some (Dir _ files) => addDir "" files
  | Some (File _ _ _) => Err (ErrNew "readdir: not a directory")
  | Some (Unreadable _ _) | None => Err (ErrNew "open")
  end.

(** [os.ReadFile(path.Join(dir, file))]; the boolean of an error tells
    whether [os.IsNotExist] holds of it. *)
Fixpoint find_entry (file : string) (es : list Node) : option Node :=
  match es with
  | [] => None
  | e :: rest => if String.eqb (node_name e) file then Some e else find_entry file rest
  end.

Definition os_ReadFile (dir file : string) (w : World) : string + (bool * error) :=
  match fs w !! dir with
  | Some (Dir _ es) =>
      match find_entry file es with
      | Some (File _ _ content) => inl content
      | Some _ => inr (false, ErrNew "read")
      | None => inr (true, ErrNew "no such file or directory")
      end
  | Some (File _ _ _) => inr (false, ErrNew "not a directory")
  | Some (Unreadable _ _) => inr (false, ErrNew "permission denied")
  | None => inr (true, ErrNew "no such file or directory")
  end.

Section build.
Context `{ManifestAPI}.
Local Open Scope go_scope.

(** [containers.NewDockerdClient]. *)
Definition NewDockerdClient : M World unit :=
  fun w =>
    match client_err w with
    | Some e => (Err (ErrWrap "new Docker API Client" e), w)
    | None => (Ok tt, w)
    end.

(** [cli.ImageList] with the filter [reference=image]: the labels of
    every image the engine holds under that reference. *)
Definition ImageList (image : string) (w : World) : result (list Labels) :=
  match list_err w with
  | Some e => Err e
  | None => Ok (map snd (filter (fun p => fst p = image) (images w)))
  end.

(** [ImageLabels]: the labels of all the images listed, merged into one
    map in the order of the list. *)
Definition merge_labels (labels info : Labels) : Labels :=
  map_fold (fun k v acc => <[k := v]> acc) labels info.

Definition ImageLabels (image : string) (w : World) : result Labels :=
  match ImageList image w with
  | Err e => Err e
  | Ok infos => Ok (foldl merge_labels ∅ infos)
  end.

(** [cli.ImageBuild] followed by the reading of its output: the engine
    records the request; when it accepts it, the image takes the tags,
    which no older image keeps. *)
Definition tag_image (labels : Labels) (imgs : list (string * Labels)) (tag : string)
  : list (string * Labels) :=
  (tag, labels) :: filter (fun p => fst p ≠ tag) imgs.

Definition BuildImage (tarFile : list (string * string)) (tags : list string)
    (labels : Labels) : M World unit :=
  fun w =>
    let calls := build_calls w ++ [mkBuildRequest tags labels tarFile] in
    match build_err w with
    | Some e => (Err e, with_engine w (images w) calls)
    | None => (Ok tt, with_engine w (foldl (tag_image labels) (images w) tags) calls)
    end.

(** [InspectImage] returns the metadata about a checktype stored in an
    image. *)
Definition InspectImage (image : string) (w : World) : result Image :=
  match ImageLabels image w with
  | Err err => Err (ErrWrap "unable to read image labels" err)
  | Ok labels =>
      match labels !! lastModifiedTimeLabel with
      | None => Err (ErrWrap "label not found" (ErrNoChecktypeImage image))
      | Some lastModified =>
          match GoTime.Parse_RFC822 lastModified with
          | None => Err (ErrWrap "invalid time defined in the label" (ErrNoChecktypeImage image))
          | Some lastModifiedTime =>
              match labels !! checktypeNameLabel with
              | None => Err (ErrWrap "label not found" (ErrNoChecktypeImage image))
              | Some ctName =>
                  match labels !! checktypeManifest with
                  | None => Err (ErrWrap "label not found" (ErrNoChecktypeImage image))
                  | Some m =>
                      match ParseManifest m with
                      | Err _ =>
                          Err (ErrWrap "invalid checktype manifest" (ErrNoChecktypeImage image))
                      | Ok manifest =>
                          Ok {| Image_Name := image;
                                Image_ChecktypeName := ctName;
                                Image_Manifest := manifest;
                                Image_LastModified := lastModifiedTime |}
                      end
                  end
              end
          end
      end
  end.

(** [NewImage] builds the image of the checktype defined in [dir] and
    returns its metadata; the field [LastModified] of the value returned
    is left at the zero time. *)
Definition NewImage (iname dir checktype : string) : M World Image :=
  fun w =>
    match os_ReadFile dir ManifestFile w with
    | inr (true, _) => (Err (ErrNew "no manifest file found in the dir"), w)
    | inr (false, err) => (Err err, w)
    | inl manifestContent =>
        match ParseManifest manifestContent with
        | Err err => (Err (ErrWrap "invalid manifest file" err), w)
        | Ok manifest =>
            match buildTarFromDir dir w with
            | Err err => (Err err, w)
            | Ok contents =>
                match lastModified dir w with
                | Err err => (Err err, w)
                | Ok modif =>
                    let t := GoTime.Format_RFC822 modif in
                    let labels : Labels :=
                      <[lastModifiedTimeLabel := t]>
                        (<[checktypeManifest := manifestContent]>
                           (<[checktypeNameLabel := checktype]> ∅)) in
                    match BuildImage contents [iname] labels w with
                    | (Err err, w') =>
                        (Err (ErrWrap "unable to build image for checktype in dir" err), w')
                    | (Ok _, w') =>
                        (Ok {| Image_Name := iname;
                               Image_ChecktypeName := checktype;
                               Image_Manifest := manifest;
                               Image_LastModified := GoTime.zero |}, w')
                    end
                end
            end
        end
    end.

(** [Image.Checktype] returns the checktype defined in the image. *)
Definition Image_Checktype (i : Image) : result Checktype :=
  match UnmarshalOptions (Image_Manifest i) with
  | Err err => Err (ErrWrap "unable to unmarshal options" err)
  | Ok options =>
      match AssetTypes_Strings (Image_Manifest i) with
      | Err err => Err (ErrWrap "unable to read asset types" err)
      | Ok assetTypes =>
          Ok {| Name := Image_ChecktypeName i;
                Description := Manifest_Description (Image_Manifest i);
                Checktypes.Image := Image_Name i;
                Timeout := Manifest_Timeout (Image_Manifest i);
                Options := options;
                RequiredVars := map AString (Manifest_RequiredVars (Image_Manifest i));
                Assets := assetTypes |}
      end
  end.

(** [goBuildDir] runs [go build] in the directory. *)
Definition goBuildDir (dir : string) : M World unit :=
  fun w =>
    match gobuild_err w !! dir with
    | Some e => (Err e, w)
    | None => (Ok tt, w)
    end.

(** [Code.isModified]. *)
Definition isModified (c : Code) (w : World) : result bool :=
  match InspectImage (imageName c) w with
  | Err err =>
      if errors_As_NoChecktypeImage err then Ok true else Err err
  | Ok image =>
      match lastModified c w with
      | Err err =>
          Err (ErrWrap "getting the last modification time for the checktype" err)
      | Ok dirTime =>
          let modified := GoTime.Equal dirTime (Image_LastModified image) in
          Ok modified
      end
  end.

(** The second half of [Code.Build]: compile, then build the image. *)
Definition rebuild (c : Code) : M World Checktype :=
  let* _ := goBuildDir c in
  let* image := NewImage (imageName c) c (name c) in
  m_lift (Image_Checktype image).

(** The first half of the branch [!modified]: the image is reused. *)
Definition reuse (c : Code) : M World Checktype :=
  let* image := (fun w => (InspectImage (imageName c) w, w)) in
  m_lift (Image_Checktype image).

(** [Code.Build] builds the code of a checktype defined in a directory. *)
Definition Build (c : Code) : M World Checktype :=
  fun w =>
    match NewDockerdClient w with
    | (Err err, w') => (Err (ErrWrap "unable to get Docker client" err), w')
    | (Ok _, w') =>
        match isModified c w' with
        | Err err => (Err err, w')
        | Ok modified =>
            if negb modified then reuse c w' else rebuild c w'
        end
    end.




End build.

End Build.

(** ** Package engine: checks, jobs and the report store *)

Module Engine.

Import Checktypes.

(** Modelled from the spec: a target of the configuration
    ([config.Target], whose declaration is not among the sources): an
    identifier, an asset-type tag and an optional map of options. *)
Record Target : Type := mkTarget {
  Identifier : string;
  AssetType_of : AssetType;
  Target_Options : GoMap.ref
}.

(** Modelled from the spec: the check of section 3 (the struct [check] of
    engine.go, which is not among the sources; the tests name its
    fields). *)
Record check : Type := mkCheck {
  id : string;
  checktype : Checktype;
  target : Target;
  options : GoMap.ref
}.

(** Modelled from the spec: the job of section 3 ([jobrunner.Job], as
    the tests of [generateJobs] fill it). *)
Record Job : Type := mkJob {
  Job_CheckID : string;
  Job_Image : string;
  Job_Target : string;
  Job_AssetType : string;
  Job_Options : string;
  Job_RequiredVars : list string
}.

(** What generation takes from outside the repository: the fixed
    enumeration of asset types, the generator of identifiers (the
    [n]-th identifier drawn) and the JSON encoder of options. *)
Class GenAPI : Type := {
  valid_asset_type : AssetType -> bool;
  new_id : nat -> string;
  json_Marshal : gmap string any -> string
}.

(** The state generation runs in: the heap of option maps and the
    number of identifiers drawn so far. *)
Record GenState : Type := mkGenState {
  heap : gmap GoMap.loc (gmap string any);
  drawn : nat
}.

Section generate.
Context `{GenAPI}.
Local Open Scope go_scope.

(** Modelled from the spec: the deduplication key of a target
    (section 3: the pair of identifier and asset type). *)
Definition target_key (t : Target) : string * string :=
  (Identifier t, AssetType_of t).

(** Modelled from the spec: deduplication of the targets (section 4.3),
    keeping the first target of each key. *)
Fixpoint dedup (targets : list Target) : list Target :=
  match targets with
  | [] => []
  | t :: rest =>
      t :: filter (fun u => target_key u ≠ target_key t) (dedup rest)
  end.

(** Modelled from the spec: the options merge of section 4.3 (the loop
    body of [generateChecks] in engine.go, which is not among the
    sources): the default options are shallow-copied into a new map,
    then every key of the target's map is set in the copy. *)
Definition merge_options (defaults overrides : GoMap.ref)
    (h : gmap GoMap.loc (gmap string any))
  : GoMap.loc * gmap GoMap.loc (gmap string any) :=
  let '(l, h1) := GoMap.make h in
  let h2 := GoMap.copy h1 l defaults in
  let h3 := GoMap.copy h2 l overrides in
  (l, h3).

(** Modelled from the spec: the check of one compatible pair, with a
    newly drawn identifier (sections 3 and 4.3). *)
Definition new_check (ct : Checktype) (t : Target) (st : GenState)
  : check * GenState :=
  let '(l, h') := merge_options (Options ct) (Target_Options t) (heap st) in
  ({| id := new_id (drawn st); checktype := ct; target := t; options := Some l |},
   {| heap := h'; drawn := S (drawn st) |}).

(** Modelled from the spec: the compatible pairs of section 4.3: for
    every target, after deduplication, the checktypes of the catalog that
    accept its asset type. *)
Definition compatible_pairs (catalog : Catalog) (targets : list Target)
  : list (Checktype * Target) :=
  t ← dedup targets;
  ct ← (map_to_list catalog).*2;
  if Accepts ct (AssetType_of t) then [(ct, t)] else [].

(** The pairs whose option maps are all allocated. *)
Definition pairs_allocated (h : gmap GoMap.loc (gmap string any))
    (pairs : list (Checktype * Target)) : Prop :=
  forall ct t, (ct, t) ∈ pairs ->
    GoMap.allocated h (Options ct) /\ GoMap.allocated h (Target_Options t).

Fixpoint make_checks (pairs : list (Checktype * Target)) (st : GenState)
  : list check * GenState :=
  match pairs with
  | [] => ([], st)
  | (ct, t) :: rest =>
      let '(c, st1) := new_check ct t st in
      let '(cs, st2) := make_checks rest st1 in
      (c :: cs, st2)
  end.

(** Modelled from the spec: the first target whose asset type is empty or
    not in the enumeration (section 4.3, first rule). *)
Definition target_ok (t : Target) : bool :=
  negb (String.eqb (AssetType_of t) "") && valid_asset_type (AssetType_of t).

Fixpoint invalid_target (targets : list Target) : option Target :=
  match targets with
  | [] => None
  | t :: rest => if target_ok t then invalid_target rest else Some t
  end.

(** Modelled from the spec: [generateChecks] of engine.go, which is not
    among the sources (section 4.3): a target with a missing or unknown
    asset type fails the whole operation; otherwise one check per
    compatible pair. *)
Definition generateChecks (catalog : Catalog) (targets : list Target)
  : M GenState (list check) :=
  fun st =>
    match invalid_target targets with
    | Some t => (Err (ErrAssetType (AssetType_of t)), st)
    | None =>
        let '(checks, st') := make_checks (compatible_pairs catalog targets) st in
        (Ok checks, st')
    end.

(** Modelled from the spec: the validation of the required variables
    (section 4.4): every entry must be a string. *)
Fixpoint required_vars (vars : list any) : result (list string) :=
  match vars with
  | [] => Ok []
  | AString v :: rest =>
      match required_vars rest with
      | Ok vs => Ok (v :: vs)
      | Err e => Err e
      end
  | _ :: _ => Err ErrVarType
  end.

(** Modelled from the spec: the projection of a check into a job
    (section 4.4). *)
Definition job_of_check (h : gmap GoMap.loc (gmap string any)) (c : check)
  : result Job :=
  let opts := json_Marshal (GoMap.deref h (options c)) in
  match required_vars (RequiredVars (checktype c)) with
  | Err e => Err e
  | Ok reqVars =>
      Ok {| Job_CheckID := id c;
            Job_Image := Image (checktype c);
            Job_Target := Identifier (target c);
            Job_AssetType := AssetType_of (target c);
            Job_Options := opts;
            Job_RequiredVars := reqVars |}
  end.

Fixpoint jobs_of_checks (h : gmap GoMap.loc (gmap string any)) (checks : list check)
  : result (list Job) :=
  match checks with
  | [] => Ok []
  | c :: rest =>
      match job_of_check h c with
      | Err e => Err e
      | Ok j =>
          match jobs_of_checks h rest with
          | Err e => Err e
          | Ok js => Ok (j :: js)
          end
      end
  end.

(** Modelled from the spec: [generateJobs] of engine.go, which is not
    among the sources (section 4.4): the checks of [generateChecks],
    each projected into a job; the first error ends the generation. *)
Definition generateJobs (catalog : Catalog) (targets : list Target)
  : M GenState (list Job) :=
  let* checks := generateChecks catalog targets in
  fun st => (jobs_of_checks (heap st) checks, st).

End generate.

(** *** The report store (store.go) *)

(** [report.Report] and its decoder belong to a library outside the
    repository. *)
Class ReportAPI : Type := {
  Report : Type;
  UnmarshalJSONTimeAsString : list Byte.byte -> result Report
}.

(** [reportStore]: the field [reports] is a Go map, nil until the first
    upload; the mutex has no part in a sequential run. *)
Record reportStore : Type := mkReportStore { reports : GoMap.ref }.

Section store.
Context `{ReportAPI}.

Abbreviation Heap := (gmap GoMap.loc (gmap string Report)).

(** [if rs.reports == nil { rs.reports = make(map[string]report.Report) }] *)
Definition init_reports (rs : reportStore) (h : Heap) : reportStore * Heap :=
  match reports rs with
  | None => let '(l, h') := GoMap.make h in (mkReportStore (Some l), h')
  | Some _ => (rs, h)
  end.

(** [UploadCheckData] decodes the content and stores it in memory indexed
    by [checkID].  The result is the link, the error ([None] is [nil])
    and the store and heap after the call. *)
Definition UploadCheckData (checkID kind : string) (startedAt : GoTime.Time)
    (content : list Byte.byte) (rs : reportStore) (h : Heap)
  : (string * option error) * (reportStore * Heap) :=
  let '(rs1, h1) := init_reports rs h in
  if String.eqb kind "reports" then
    match UnmarshalJSONTimeAsString content with
    | Err err => (("", Some (ErrWrap "decode content" err)), (rs1, h1))
    | Ok r => (("", None), (rs1, GoMap.set h1 (reports rs1) checkID r))
    end
  else if String.eqb kind "logs" then (("", None), (rs1, h1))
  else (("", Some (ErrNew ("unknown data kind: " +:+ kind))), (rs1, h1)).

(** [Reports] returns [maps.Clone(rs.reports)]. *)
Definition Reports (rs : reportStore) (h : Heap) : GoMap.ref * Heap :=
  GoMap.clone h (reports rs).

(** The reports the store holds. *)
Definition stored (rs : reportStore) (h : Heap) : gmap string Report :=
  GoMap.deref h (reports rs).

(** What a caller can do to a map it holds. *)
Inductive mutation : Type :=
  | MSet (k : string) (r : Report)
  | MDelete (k : string)
  | MClear.

Definition mutate (m : GoMap.ref) (h : Heap) (mu : mutation) : Heap :=
  match mu with
  | MSet k r => GoMap.set h m k r
  | MDelete k => GoMap.del h m k
  | MClear => GoMap.clear h m
  end.

Definition mutate_all (m : GoMap.ref) (h : Heap) (mus : list mutation) : Heap :=
  foldl (mutate m) h mus.

End store.

End Engine.

(** ** Concrete inputs

    Instances of the outside interfaces and small worlds on which the
    definitions above are run. *)

Module Fixtures.

Import Checktypes.

(** A manifest reduced to its description line. *)
Definition manifest_api : Build.ManifestAPI :=
  {| Build.Manifest := string;
     Build.ManifestFile := "manifest.toml";
     Build.ParseManifest := fun text =>
       if String.prefix "Description" text then Ok text
       else Err (ErrNew "invalid manifest");
     Build.UnmarshalOptions := fun _ => Ok None;
     Build.AssetTypes_Strings := fun _ => Ok ["DomainName"];
     Build.Manifest_Description := fun m => m;
     Build.Manifest_Timeout := fun _ => 0%Z;
     Build.Manifest_RequiredVars := fun _ => [] |}.

(** 2023-09-07 16:35:00 UTC, a whole minute, and two later instants:
    31 seconds and one hour 31 seconds after it. *)
Definition t_minute : GoTime.Time := 1694104500000000000%Z.


Definition check_dir : Build.Code := "/checks/vulcan-mycheck".

(** The directory of a checktype whose files were last modified at
    [t]; the [.git] directory holds a newer file. *)
Definition check_tree (t : GoTime.Time) : Build.Node :=
  Build.Dir "vulcan-mycheck"
    [Build.File "manifest.toml" t "Description = 'my check'";
     Build.File "main.go" t "package main";
     Build.Dir ".git" [Build.File "HEAD" (t + 1)%Z "ref: refs/heads/main"]].

(** A world with a running engine that holds no image. *)
Definition world (t : GoTime.Time) : Build.World :=
  {| Build.client_err := None;
     Build.list_err := None;
     Build.build_err := None;
     Build.images := [];
     Build.fs := {[ check_dir := check_tree t ]};
     Build.gobuild_err := ∅;
     Build.build_calls := [] |}.


(** Reports reduced to their text; a content decodes when it starts
    with an opening brace. *)
Definition report_api : Engine.ReportAPI :=
  {| Engine.Report := list Byte.byte;
     Engine.UnmarshalJSONTimeAsString := fun content =>
       match content with
       | Byte.x7b :: _ => Ok content
       | _ => Err (ErrNew "invalid character")
       end |}.

(** The asset types the tests of the engine use. *)
Definition gen_api : Engine.GenAPI :=
  {| Engine.valid_asset_type := fun tag =>
       bool_decide (tag ∈ ["DomainName"; "Hostname"; "WebAddress"; "GitRepository"]);
     Engine.new_id := fun n => "check-" +:+ pretty n;
     Engine.json_Marshal := fun m =>
       if bool_decide (m = ∅) then "{}" else "{...}" |}.

(** Three descriptors; the second and the third share a name. *)
Definition ct_nuclei : Checktype :=
  mkChecktype "vulcan-nuclei" "nuclei" 0 "vulcansec/vulcan-nuclei:edge" None []
    ["Hostname"; "WebAddress"].
Definition ct_trivy : Checktype :=
  mkChecktype "vulcan-trivy" "trivy" 0 "vulcansec/vulcan-trivy:edge" None []
    ["GitRepository"].
Definition ct_trivy_local : Checktype :=
  mkChecktype "vulcan-trivy" "trivy, patched" 0 "vulcan-trivy-local" None []
    ["GitRepository"; "DockerImage"].

(** Two remote catalogs and one checktype directory; the world is the
    list of the directories built. *)
Definition catalog_env : Checktypes.Env :=
  {| Checktypes.World := list string;
     Checktypes.url_Parse := fun u =>
       if String.prefix "https://" u then Ok (mkURL "https" u)
       else if String.prefix "%" u then Err (ErrNew "invalid URL escape")
       else Ok (mkURL "" u);
     Checktypes.os_Stat := fun path _ =>
       if String.eqb path "/checks/vulcan-trivy" then StatInfo true else StatNotExist;
     Checktypes.code_Build := fun path w => (Ok ct_trivy_local, w ++ [path]);
     Checktypes.urlutil_Get := fun u w =>
       if String.eqb (Path u) "https://example.com/catalog.json"
       then (Ok [Byte.x01], w)
       else (Err (ErrNew "not found"), w);
     Checktypes.json_Unmarshal := fun data =>
       match data with
       | [Byte.x01] => Ok [ct_nuclei; ct_trivy]
       | _ => Err (ErrNew "unexpected end of JSON input")
       end |}.

(** The checktype and the target of the option-override test of the
    engine; their option maps live at the locations 1 and 2. *)
Definition options_heap : gmap GoMap.loc (gmap string any) :=
  {[ 1%positive :=
       {[ "option1" := AString "checktype value 1";
          "option2" := AString "checktype value 2";
          "option3" := AString "checktype value 3" ]};
     2%positive := {[ "option2" := AString "target value 2" ]} ]}.

Definition ct_options : Checktype :=
  mkChecktype "checktype1" "checktype1 description" 0 "namespace/repository:tag"
    (Some 1%positive) [] ["DomainName"].

Definition ct_int_vars : Checktype :=
  mkChecktype "checktype1" "checktype1 description" 0 "namespace/repository:tag"
    None [AInt 1; AInt 2] ["DomainName"].

Definition target_example : Engine.Target :=
  Engine.mkTarget "example.com" "DomainName" (Some 2%positive).

Definition target_repository : Engine.Target :=
  Engine.mkTarget "example.com" "GitRepository" None.

Definition gen_state : Engine.GenState := Engine.mkGenState options_heap 0.

End Fixtures.

(** ** The report store: summary and runs of uploads *)

Module Store.

Import Engine.

(** The fields of [report.Report] that [Summary] prints, each as the
    text the verb [%v] gives it. *)
Class ReportFields `{ReportAPI} : Type := {
  Report_ChecktypeName : Report -> string;
  Report_Target : Report -> string;
  Report_StartTime : Report -> string;
  Report_Status : Report -> string
}.

(** One call of [UploadCheckData]. *)
Record upload : Type := mkUpload {
  up_checkID : string;
  up_kind : string;
  up_startedAt : GoTime.Time;
  up_content : list Byte.byte
}.

Section summary.
Context `{ReportFields}.

(** [fmt.Sprintf("checktype=%v target=%v start=%v status=%v", ...)]. *)
Definition summary_line (r : Report) : string :=
  "checktype=" +:+ Report_ChecktypeName r +:+ " target=" +:+ Report_Target r
    +:+ " start=" +:+ Report_StartTime r +:+ " status=" +:+ Report_Status r.

(** [Summary] returns a human-readable summary per report, in the order
    in which the map is ranged over. *)
Definition Summary (rs : reportStore) (h : gmap GoMap.loc (gmap string Report))
  : list string :=
  (fun p => summary_line p.2) <$> map_to_list (stored rs h).

End summary.

Section runs.
Context `{ReportAPI}.

(** The store and the heap after one call, and after a list of calls. *)
Definition after_upload (st : reportStore * gmap GoMap.loc (gmap string Report))
    (u : upload) : reportStore * gmap GoMap.loc (gmap string Report) :=
  (UploadCheckData (up_checkID u) (up_kind u) (up_startedAt u) (up_content u)
     st.1 st.2).2.

Definition after_uploads (us : list upload)
    (st : reportStore * gmap GoMap.loc (gmap string Report))
  : reportStore * gmap GoMap.loc (gmap string Report) :=
  foldl after_upload st us.

End runs.

End Store.

(** ** Trees of files: what a walk sees *)

Module BuildTree.

Import Build.






End BuildTree.

(** ** Paths *)

Module BuildPath.

(** A path element: a name without a slash. *)
Definition slash_free (x : string) : bool :=
  forallb (fun c => negb (Build.is_slash c)) (list_ascii_of_string x).

End BuildPath.

(** ** Package containers (and the functions of package dockerutil that
    it took over) *)

Module Containers.

(** [type Runtime int] with its four constants; the zero value is
    [RuntimeDockerd]. *)
Inductive Runtime : Type :=
  | RuntimeDockerd
  | RuntimeDockerdDockerDesktop
  | RuntimeDockerdRancherDesktop
  | RuntimeDockerdPodmanDesktop.

#[global] Instance Runtime_eq_dec : EqDecision Runtime.
Proof. solve_decision. Defined.

(** [var ErrInvalidRuntime = errors.New("invalid runtime")]. *)
Definition ErrInvalidRuntime : error := ErrNew "invalid runtime".

Definition runtimeNames : gmap string Runtime :=
  {[ "Dockerd" := RuntimeDockerd;
     "DockerdDockerDesktop" := RuntimeDockerdDockerDesktop;
     "DockerdRancherDesktop" := RuntimeDockerdRancherDesktop;
     "DockerdPodmanDesktop" := RuntimeDockerdPodmanDesktop ]}.

(** [ParseRuntime] converts a runtime name into a [Runtime] value. *)
Definition ParseRuntime (s : string) : result Runtime :=
  match runtimeNames !! s with
  | Some rt => Ok rt
  | None => Err (ErrWrap s ErrInvalidRuntime)
  end.

(** [GetenvRuntime], over the environment as [os.Getenv] reads it (the
    empty string for a variable that is not set). *)
Definition GetenvRuntime (getenv : string -> string) : result Runtime :=
  let envRuntime := getenv "LAVA_RUNTIME" in
  if String.eqb envRuntime "" then Ok RuntimeDockerd
  else
    match ParseRuntime envRuntime with
    | Err err => Err (ErrWrap "parse runtime" err)
    | Ok rt => Ok rt
    end.

(** [(rt *Runtime) UnmarshalText]: the runtime after the call and the
    error. *)
Definition UnmarshalText (rt : Runtime) (text : string) : Runtime * option error :=
  match ParseRuntime text with
  | Err err => (rt, Some err)
  | Ok runtime => (runtime, None)
  end.

(** What the package takes from [net], [net/url] and [encoding/json]:
    addresses and masks, [net.ParseCIDR] (the network of the text: its
    address and its mask), [net.ParseIP], [net.IPNet.Contains], the
    texts of an address and of a network, [url.Parse], and the decoding
    of one line of the output of the engine. *)
Class NetAPI : Type := {
  IP : Type;
  IPMask : Type;
  net_ParseCIDR : string -> option (IP * IPMask);
  net_ParseIP : string -> option IP;
  net_Contains : IP -> IPMask -> IP -> bool;
  IP_String : IP -> string;
  IPNet_String : IP -> IPMask -> string;
  url_Parse : string -> option Checktypes.URL
}.

(** [net.IPNet]. *)
Record IPNet `{NetAPI} : Type := mkIPNet { IPNet_IP : IP; IPNet_Mask : IPMask }.
Arguments mkIPNet {_} _ _.

(** An entry of [resp.IPAM.Config]. *)
Record IPAMConfig : Type := mkIPAMConfig { Subnet : string; Gateway : string }.

(** [dockerAPIResp]; [ErrorDetail] is nil or points to a message. *)
Record dockerAPIResp : Type := mkDockerAPIResp {
  Status : string;
  ErrorDetail : option string
}.

(** The body of a response as [bufio.Reader.ReadString] delivers it: the
    lines that end with a newline, then the text that follows the last
    newline together with the error that ends the reading ([None] is
    [io.EOF]). *)
Record Reader : Type := mkReader {
  complete_lines : list string;
  unterminated : string;
  end_err : option error
}.

(** The engine behind [client.APIClient]: its state, [NetworkInspect]
    (the configurations of a network), [ImageBuild] (the body of the
    response) and the decoding of a line of that body. *)
Class EngineAPI : Type := {
  Engine : Type;
  NetworkInspect : string -> M Engine (list IPAMConfig);
  ImageBuild : list (string * string) -> list string -> gmap string string -> M Engine Reader;
  parseDockerAPIResultLine : string -> result dockerAPIResp
}.

(** [DockerdClient]: the host of the daemon the embedded client was
    made for, and the runtime. *)
Record DockerdClient : Type := mkDockerdClient {
  APIClient_DaemonHost : string;
  rt : Runtime
}.

Section client.
Context `{NetAPI} `{EngineAPI}.

(** [DaemonHost] returns the host address used by the client. *)
Definition DaemonHost (cli : DockerdClient) : string :=
  let daemonHost := APIClient_DaemonHost cli in
  match url_Parse daemonHost with
  | None => daemonHost
  | Some u =>
      if bool_decide (rt cli = RuntimeDockerdDockerDesktop)
         && String.eqb (Checktypes.Scheme u) "unix"
         && String.eqb (Build.path_Base (Checktypes.Path u)) "docker.sock"
      then "unix:///var/run/docker.sock"
      else daemonHost
  end.

(** [HostGatewayHostname] and [HostGatewayMapping]. *)
Definition HostGatewayHostname (cli : DockerdClient) : string :=
  if bool_decide (rt cli = RuntimeDockerdPodmanDesktop)
  then "host.containers.internal"
  else "host.docker.internal".

Definition HostGatewayMapping (cli : DockerdClient) : string :=
  if bool_decide (rt cli = RuntimeDockerd)
  then HostGatewayHostname cli +:+ ":host-gateway"
  else "".

(** The loop of [gateways] over [resp.IPAM.Config]. *)
Fixpoint gateways_loop (configs : list IPAMConfig) (gws : list IPNet)
  : result (list IPNet) :=
  match configs with
  | [] => Ok gws
  | cfg :: rest =>
      match net_ParseCIDR (Subnet cfg) with
      | None => Err (ErrNew ("invalid subnet: " +:+ Subnet cfg))
      | Some (subnet_ip, subnet_mask) =>
          match net_ParseIP (Gateway cfg) with
          | None => Err (ErrNew ("invalid IP: " +:+ Gateway cfg))
          | Some ip =>
              if negb (net_Contains subnet_ip subnet_mask ip)
              then Err (ErrNew "subnet mismatch")
              else gateways_loop rest (gws ++ [mkIPNet ip subnet_mask])
          end
      end
  end.

(** [gateways] returns the gateways of the specified Docker network. *)
Definition gateways (network : string) : M Engine (list IPNet) :=
  fun w =>
    match NetworkInspect network w with
    | (Err err, w') => (Err (ErrWrap "network inspect" err), w')
    | (Ok configs, w') => (gateways_loop configs [], w')
    end.

Definition defaultDockerBridgeNetwork : string := "bridge".

(** [bridgeGateway] returns the gateway of the default bridge network. *)
Definition bridgeGateway : M Engine IPNet :=
  fun w =>
    match gateways defaultDockerBridgeNetwork w with
    | (Err err, w') => (Err (ErrWrap "could not get Docker network gateway" err), w')
    | (Ok gws, w') =>
        match gws with
        | [gw] => (Ok gw, w')
        | _ => (Err (ErrNew "unexpected number of gateways"), w')
        end
    end.

(** [HostGatewayInterfaceAddr] returns the address of a local interface
    that is reachable from the containers. *)
Definition HostGatewayInterfaceAddr (cli : DockerdClient) : M Engine string :=
  fun w =>
    if bool_decide (rt cli = RuntimeDockerd) then
      match bridgeGateway w with
      | (Err err, w') => (Err (ErrWrap "get bridge gateway" err), w')
      | (Ok gw, w') => (Ok (IP_String (IPNet_IP gw)), w')
      end
    else (Ok "127.0.0.1", w).

(** The loop of [readDockerOutput] over the lines read, with the lines
    kept so far. *)
Fixpoint readDockerOutput_loop (to_read lines : list string) (final : option error)
  : list string * option error :=
  match to_read with
  | [] => (lines, final)
  | line :: rest =>
      let lines := lines ++ [line] in
      match parseDockerAPIResultLine line with
      | Err err => ([], Some err)
      | Ok msg =>
          match ErrorDetail msg with
          | Some message => ([], Some (ErrNew message))
          | None => readDockerOutput_loop rest lines final
          end
      end
  end.

(** [readDockerOutput]: the lines and the error. *)
Definition readDockerOutput (r : Reader) : list string * option error :=
  readDockerOutput_loop (complete_lines r) [] (end_err r).

(** [BuildImage] builds an image given a tar and list of tags and
    labels; it returns the log of the build and the error. *)
Definition BuildImage (tarFile : list (string * string)) (tags : list string)
    (labels : gmap string string) (w : Engine) : (string * option error) * Engine :=
  match ImageBuild tarFile tags labels w with
  | (Err err, w') => (("", Some err), w')
  | (Ok body, w') =>
      let '(lines, err) := readDockerOutput body in
      ((String.concat (String "010"%char EmptyString) lines, err), w')
  end.

(** The first line that does not decode or that carries an error
    detail, as the error it gives. *)
Fixpoint first_failure (lines : list string) : option error :=
  match lines with
  | [] => None
  | line :: rest =>
      match parseDockerAPIResultLine line with
      | Err err => Some err
      | Ok msg =>
          match ErrorDetail msg with
          | Some message => Some (ErrNew message)
          | None => first_failure rest
          end
      end
  end.

(** The gateway a configuration of a network gives: the address of its
    gateway, which lies in its subnet, with the mask of the subnet. *)
Definition gateway_of (cfg : IPAMConfig) (gw : IPNet) : Prop :=
  exists subnet_ip subnet_mask ip,
    net_ParseCIDR (Subnet cfg) = Some (subnet_ip, subnet_mask)
    /\ net_ParseIP (Gateway cfg) = Some ip
    /\ net_Contains subnet_ip subnet_mask ip = true
    /\ gw = mkIPNet ip subnet_mask.

End client.

End Containers.

(** ** Package dockerutil: the host of the bridge *)

Module Dockerutil.

Import Containers.

Section bridge.
Context `{NetAPI} `{EngineAPI}.

(** [isDockerDesktop]: the resolver returns the addresses of the
    interfaces, as their texts, or an error. *)
Definition isDockerDesktop (r : result (list string)) : M Engine bool :=
  fun w =>
    match r with
    | Err err => (Err (ErrWrap "interface addrs" err), w)
    | Ok addrs =>
        match bridgeGateway w with
        | (Err err, w') => (Err (ErrWrap "get bridge gateway" err), w')
        | (Ok gw, w') =>
            (Ok (negb (existsb (String.eqb (IPNet_String (IPNet_IP gw) (IPNet_Mask gw)))
                         addrs)), w')
        end
    end.

(** [bridgeHost] returns a host that points to the Docker host and is
    reachable from the containers of the default bridge. *)
Definition bridgeHost (r : result (list string)) : M Engine string :=
  fun w =>
    match isDockerDesktop r w with
    | (Err err, w') => (Err (ErrWrap "detect Docker Desktop" err), w')
    | (Ok true, w') => (Ok "127.0.0.1", w')
    | (Ok false, w') =>
        match bridgeGateway w' with
        | (Err err, w'') => (Err (ErrWrap "get bridge gateway" err), w'')
        | (Ok gw, w'') => (Ok (IP_String (IPNet_IP gw)), w'')
        end
    end.

End bridge.

End Dockerutil.

(** ** More concrete inputs *)

Module MoreFixtures.

(** The text of a report stands for each of its fields. *)
Definition report_fields : @Store.ReportFields Fixtures.report_api :=
  @Store.Build_ReportFields Fixtures.report_api
    (fun r : list Byte.byte => String.string_of_list_byte r)
    (fun _ => "example.com")
    (fun _ => "2023-09-07 16:35:31")
    (fun _ => "FINISHED").

(** Two contents that decode and one that does not. *)
Definition content_a : list Byte.byte := [Byte.x7b; Byte.x61; Byte.x7d].
Definition content_b : list Byte.byte := [Byte.x7b; Byte.x62; Byte.x7d].
Definition content_bad : list Byte.byte := [Byte.x00].

(** An engine that cannot be reached. *)
Definition world_unreachable : Build.World :=
  {| Build.client_err := None;
     Build.list_err := Some (ErrNew "connection refused");
     Build.build_err := None;
     Build.images := [];
     Build.fs := {[ Fixtures.check_dir := Fixtures.check_tree Fixtures.t_minute ]};
     Build.gobuild_err := ∅;
     Build.build_calls := [] |}.

(** A network layer that knows one subnet and one address, and an engine
    whose bridge has one configuration and that counts the inspections
    made. *)
Definition net_api : Containers.NetAPI :=
  {| Containers.IP := Z;
     Containers.IPMask := Z;
     Containers.net_ParseCIDR := fun s =>
       if String.eqb s "172.17.0.0/16" then Some (2886795264%Z, 16%Z) else None;
     Containers.net_ParseIP := fun s =>
       if String.eqb s "172.17.0.1" then Some 2886795265%Z else None;
     Containers.net_Contains := fun net mask ip =>
       Z.eqb (Z.shiftr ip (32 - mask)) (Z.shiftr net (32 - mask));
     Containers.IP_String := fun ip =>
       if Z.eqb ip 2886795265 then "172.17.0.1" else "0.0.0.0";
     Containers.IPNet_String := fun ip mask =>
       if Z.eqb ip 2886795265 then "172.17.0.1/16" else "0.0.0.0/0";
     Containers.url_Parse := fun s =>
       if String.prefix "unix://" s
       then Some (Checktypes.mkURL "unix" (String.substring 7 (String.length s - 7) s))
       else Some (Checktypes.mkURL "" s) |}.

Definition engine_api : Containers.EngineAPI :=
  {| Containers.Engine := nat;
     Containers.NetworkInspect := fun network n =>
       if String.eqb network "bridge"
       then (Ok [Containers.mkIPAMConfig "172.17.0.0/16" "172.17.0.1"], S n)
       else (Err (ErrNew "network not found"), S n);
     Containers.ImageBuild := fun _ _ _ n =>
       (Ok (Containers.mkReader ["{step 1}"; "{step 2}"] "{step" None), n);
     Containers.parseDockerAPIResultLine := fun line =>
       if String.prefix "{error" line
       then Ok (Containers.mkDockerAPIResp "" (Some "build failed"))
       else if String.prefix "{" line
       then Ok (Containers.mkDockerAPIResp line None)
       else Err (ErrNew "invalid character") |}.

Definition dockerd_client : Containers.DockerdClient :=
  Containers.mkDockerdClient "unix:///var/run/docker.sock" Containers.RuntimeDockerd.

Definition desktop_client : Containers.DockerdClient :=
  Containers.mkDockerdClient "unix:///home/user/.docker/desktop/docker.sock"
    Containers.RuntimeDockerdDockerDesktop.

End MoreFixtures.

(** * Properties *)

(** ** Go maps *)

Module GoMapFacts.

Section facts.
Context {V : Type}.
Implicit Types (h : gmap GoMap.loc (gmap string V)) (l : GoMap.loc).

Lemma fresh_not_allocated h : h !! fresh (dom h) = None.
Proof. apply not_elem_of_dom, is_fresh. Qed.

Lemma allocated_not_fresh h l : is_Some (h !! l) -> l ≠ fresh (dom h).
Proof.
  intros [m Hm] ->. rewrite fresh_not_allocated in Hm. discriminate.
Qed.

Lemma deref_insert_ne h l l' m :
  l ≠ l' -> GoMap.deref (<[l' := m]> h) (Some l) = GoMap.deref h (Some l).
Proof. intros Hne. unfold GoMap.deref. by rewrite lookup_insert_ne. Qed.

Lemma deref_insert_eq h l m : GoMap.deref (<[l := m]> h) (Some l) = m.
Proof. unfold GoMap.deref. by rewrite lookup_insert_eq. Qed.

(** A reference that is allocated keeps its entries when a map is made. *)
Lemma deref_insert_fresh h r m :
  GoMap.allocated h r ->
  GoMap.deref (<[fresh (dom h) := m]> h) r = GoMap.deref h r.
Proof.
  destruct r as [l|]; [|done]. simpl. intros Hl.
  apply deref_insert_ne. by apply allocated_not_fresh.
Qed.

(** [maps.Copy] into an allocated map: the entries of the source are
    laid over those of the destination. *)
Lemma copy_allocated h dst src m :
  h !! dst = Some m ->
  GoMap.copy h dst src = <[dst := GoMap.deref h src ∪ m]> h.
Proof.
  intros Hdst. unfold GoMap.copy.
  apply (map_fold_weak_ind (fun acc m' => acc = <[dst := m' ∪ m]> h)).
  - rewrite (left_id_L ∅ (∪)). by rewrite insert_id.
  - intros k v m' acc Hk ->. unfold GoMap.set.
    rewrite deref_insert_eq, insert_insert_eq.
    by rewrite insert_union_l.
Qed.

End facts.

End GoMapFacts.

(** ** The report store *)

Module StoreSpec.

Import Engine.

Section store.
Context `{ReportAPI}.
Implicit Types (rs : reportStore) (h : gmap GoMap.loc (gmap string Report)).

Lemma init_reports_stored rs h :
  stored (init_reports rs h).1 (init_reports rs h).2 = stored rs h.
Proof.
  unfold init_reports, stored. destruct rs as [[l|]]; simpl; [done|].
  by rewrite lookup_insert_eq.
Qed.

Lemma init_reports_frame rs h l :
  is_Some (h !! l) -> (init_reports rs h).2 !! l = h !! l.
Proof.
  intros Hl. unfold init_reports. destruct (reports rs); [done|]. simpl.
  rewrite lookup_insert_ne; [done|].
  intros Heq. by apply (GoMapFacts.allocated_not_fresh h l).
Qed.

(** A mutation through one reference leaves every other map object as
    it was. *)
Lemma mutate_frame (l l' : GoMap.loc) h mu :
  l ≠ l' -> mutate (Some l') h mu !! l = h !! l.
Proof.
  intros Hne. destruct mu; simpl; by rewrite lookup_insert_ne.
Qed.

Lemma mutate_all_frame (l l' : GoMap.loc) mus h :
  l ≠ l' -> mutate_all (Some l') h mus !! l = h !! l.
Proof.
  intros Hne. revert h. induction mus as [|mu mus IH]; intros h; [done|].
  unfold mutate_all in *. simpl. rewrite IH. by apply mutate_frame.
Qed.

Lemma mutate_all_nil mus h : mutate_all None h mus = h.
Proof.
  revert h. induction mus as [|mu mus IH]; intros h; [done|].
  unfold mutate_all in *. simpl. rewrite IH. by destruct mu.
Qed.

(** C10: whatever the check identifier, the kind, the time and the
    content, and whether or not an error is returned, the link that
    [UploadCheckData] returns is the empty string. *)
Theorem UploadCheckData_link_empty checkID kind startedAt content rs h :
  (UploadCheckData checkID kind startedAt content rs h).1.1 = "".
Proof.
  unfold UploadCheckData.
  destruct (init_reports rs h) as [rs1 h1].
  destruct (String.eqb kind "reports").
  - by destruct (UnmarshalJSONTimeAsString content).
  - by destruct (String.eqb kind "logs").
Qed.

(** C8: an upload of kind ["reports"] whose content does not decode
    returns the decode error; an upload of kind ["logs"] returns no
    error; an upload of any other kind returns the unknown-kind error;
    and in the three cases the reports the store holds are those it held
    before, and no map object that existed before the call has changed. *)
Theorem UploadCheckData_stores_nothing checkID kind startedAt content rs h :
  let res := UploadCheckData checkID kind startedAt content rs h in
  let err := res.1.2 in
  let rs' := res.2.1 in
  let h' := res.2.2 in
  (kind = "reports" ->
     forall e, UnmarshalJSONTimeAsString content = Err e ->
       err = Some (ErrWrap "decode content" e)
       /\ stored rs' h' = stored rs h
       /\ forall l, is_Some (h !! l) -> h' !! l = h !! l)
  /\ (kind = "logs" ->
       err = None
       /\ stored rs' h' = stored rs h
       /\ forall l, is_Some (h !! l) -> h' !! l = h !! l)
  /\ (kind ≠ "reports" -> kind ≠ "logs" ->
       err = Some (ErrNew ("unknown data kind: " +:+ kind))
       /\ stored rs' h' = stored rs h
       /\ forall l, is_Some (h !! l) -> h' !! l = h !! l).
Proof.
  unfold UploadCheckData.
  pose proof (init_reports_stored rs h) as Hst.
  pose proof (init_reports_frame rs h) as Hfr.
  destruct (init_reports rs h) as [rs1 h1]. simpl in Hst, Hfr.
  destruct (String.eqb_spec kind "reports") as [->|Hr].
  - destruct (UnmarshalJSONTimeAsString content) as [r|e0] eqn:Hdec; simpl.
    + repeat split; try discriminate; try congruence.
    + repeat split; try discriminate; try congruence; auto.
  - destruct (String.eqb_spec kind "logs") as [->|Hl]; simpl.
    + repeat split; try discriminate; try congruence; auto.
    + repeat split; try congruence; auto.
Qed.

(** C9: [Reports] returns a copy of the map of the store: the map
    returned has the reports of the store, and after any sequence of
    assignments, deletions and clearings the caller makes on the map
    returned, the store holds the same reports as before and a new call
    of [Reports] returns them. *)
Theorem Reports_defensive_copy rs h (mus : list mutation) :
  GoMap.allocated h (reports rs) ->
  let m := (Reports rs h).1 in
  let h1 := (Reports rs h).2 in
  let h2 := mutate_all m h1 mus in
  GoMap.deref h1 m = stored rs h
  /\ stored rs h2 = stored rs h
  /\ GoMap.deref (Reports rs h2).2 (Reports rs h2).1 = stored rs h.
Proof.
  unfold Reports, stored, GoMap.clone.
  destruct rs as [[l|]]; cbn [reports GoMap.allocated fst snd].
  - intros Hl.
    pose proof (GoMapFacts.allocated_not_fresh h l Hl) as Hne.
    cbv zeta. set (l' := fresh (dom h)) in *.
    set (h2 := mutate_all _ _ mus).
    assert (Hh2 : GoMap.deref h2 (Some l) = GoMap.deref h (Some l)).
    { unfold GoMap.deref, h2. rewrite mutate_all_frame by done.
      by rewrite lookup_insert_ne. }
    rewrite !GoMapFacts.deref_insert_eq. done.
  - intros _. cbv zeta. by rewrite mutate_all_nil.
Qed.

End store.

(** An instance of C8: on an empty store, a content that does not start
    with a brace is refused with the decode error and nothing is
    stored. *)
Lemma UploadCheckData_stores_nothing_witness :
  let res := @UploadCheckData Fixtures.report_api "check-0" "reports" 0%Z
               [Byte.x00] (mkReportStore None) ∅ in
  res.1.2 = Some (ErrWrap "decode content" (ErrNew "invalid character"))
  /\ @stored Fixtures.report_api res.2.1 res.2.2 = ∅.
Proof.
  destruct (@UploadCheckData_stores_nothing Fixtures.report_api "check-0" "reports"
              0%Z [Byte.x00] (mkReportStore None) ∅) as [Hreports _].
  destruct (Hreports eq_refl (ErrNew "invalid character") eq_refl) as (Herr & Hst & _).
  split; [exact Herr | exact Hst].
Defined.

(** An instance of C9: a store with one report, whose caller overwrites
    the report in the map returned and then clears that map. *)
Lemma Reports_defensive_copy_witness :
  let rs := mkReportStore (Some 1%positive) in
  let h : gmap GoMap.loc (gmap string (list Byte.byte)) :=
    {[ 1%positive := {[ "check-0" := [Byte.x7b; Byte.x7d] ]} ]} in
  let m := (@Reports Fixtures.report_api rs h).1 in
  let h1 := (@Reports Fixtures.report_api rs h).2 in
  let h2 := @mutate_all Fixtures.report_api m h1
              [@MSet Fixtures.report_api "check-0" []; @MClear Fixtures.report_api] in
  GoMap.allocated h (reports rs)
  /\ @stored Fixtures.report_api rs h2 = @stored Fixtures.report_api rs h.
Proof.
  assert (Hal : GoMap.allocated
                  ({[ 1%positive := {[ "check-0" := [Byte.x7b; Byte.x7d] ]} ]}
                     : gmap GoMap.loc (gmap string (list Byte.byte)))
                  (Some 1%positive)).
  { simpl. eexists. apply lookup_singleton_eq. }
  split; [exact Hal|].
  exact (proj1 (proj2 (@Reports_defensive_copy Fixtures.report_api
           (mkReportStore (Some 1%positive)) _
           [@MSet Fixtures.report_api "check-0" []; @MClear Fixtures.report_api] Hal))).
Defined.

End StoreSpec.

(** ** The build cache *)

Module BuildSpec.

Import Build.

Section build.
Context `{ManifestAPI}.



(** The decision of [isModified] when the image is a prior build. *)
Lemma isModified_decision c w image dirTime :
  InspectImage (imageName c) w = Ok image ->
  lastModified c w = Ok dirTime ->
  isModified c w = Ok (GoTime.Equal dirTime (Image_LastModified image)).
Proof. intros Hi Hd. unfold isModified. by rewrite Hi, Hd. Qed.



(** What [Code.Build] does with a prior build, in every world: it takes
    the rebuild path when the time of the directory equals the time of
    the image, and reuses the image when the two differ. *)
Lemma Build_equal_fingerprint_rebuilds c w image :
  client_err w = None ->
  InspectImage (imageName c) w = Ok image ->
  lastModified c w = Ok (Image_LastModified image) ->
  Build c w = rebuild c w.
Proof.
  intros Hcli Hi Hd. unfold Build, NewDockerdClient. rewrite Hcli.
  rewrite (isModified_decision _ _ _ _ Hi Hd).
  unfold GoTime.Equal. by rewrite Z.eqb_refl.
Qed.

Lemma Build_different_fingerprint_reuses c w image dirTime :
  client_err w = None ->
  InspectImage (imageName c) w = Ok image ->
  lastModified c w = Ok dirTime ->
  dirTime ≠ Image_LastModified image ->
  Build c w = reuse c w /\ (Build c w).2 = w.
Proof.
  intros Hcli Hi Hd Hne. unfold Build, NewDockerdClient. rewrite Hcli.
  rewrite (isModified_decision _ _ _ _ Hi Hd).
  unfold GoTime.Equal. apply Z.eqb_neq in Hne. rewrite Hne. simpl.
  split; [done|]. unfold reuse, m_bind, m_lift. by rewrite Hi.
Qed.


End build.






End BuildSpec.

(** ** The catalog *)

Module CatalogSpec.

Import Checktypes.

Section catalog.
Context `{Env}.

(** The loop of [NewCatalog] inserts the descriptors of the sources, in
    their order, into the catalog it starts from, and fails where the
    first source fails. *)
Lemma NewCatalog_loop_descriptors urls (checktypes : gmap string Checktype) w :
  NewCatalog_loop urls checktypes w =
    match sources_descriptors urls w with
    | (Ok ds, w') => (Ok (foldl put checktypes ds), w')
    | (Err e, w') => (Err e, w')
    end.
Proof.
  revert checktypes w. induction urls as [|u rest IH]; intros checktypes w; [done|].
  cbn [NewCatalog_loop sources_descriptors]. unfold source_descriptors.
  destruct (url_Parse u) as [parsedURL|e]; [|done].
  unfold m_bind, m_ret, m_fail.
  destruct (isDir parsedURL w) as [[|]|e]; [| |done].
  - destruct (code_Build (Path parsedURL) w) as [[ct|e] w1]; [|done].
    rewrite IH.
    by destruct (sources_descriptors rest w1) as [[ds|e] w2].
  - destruct (urlutil_Get parsedURL w) as [[data|e] w1]; [|done].
    destruct (json_Unmarshal data) as [decData|e]; [|done].
    rewrite IH.
    destruct (sources_descriptors rest w1) as [[ds|e] w2]; [|done].
    by rewrite foldl_app.
Qed.

Lemma last_named_cons n ct ds :
  last_named n (ct :: ds) =
    match last_named n ds with
    | Some ct' => Some ct'
    | None => if decide (Name ct = n) then Some ct else None
    end.
Proof.
  unfold last_named. rewrite filter_cons.
  destruct (decide (Name ct = n)); [|by destruct (last _)].
  destruct (filter _ ds) as [|ct' l]; [done|].
  rewrite last_cons_cons.
  destruct (last (ct' :: l)) eqn:Hlast; [done|].
  by apply last_None in Hlast.
Qed.

(** Inserting descriptors in order leaves, under each name, the last
    descriptor of that name, or what the catalog held when there is
    none. *)
Lemma foldl_put_lookup ds (checktypes : gmap string Checktype) n :
  foldl put checktypes ds !! n =
    match last_named n ds with
    | Some ct => Some ct
    | None => checktypes !! n
    end.
Proof.
  revert checktypes. induction ds as [|ct ds IH]; intros checktypes; [done|].
  cbn [foldl]. rewrite IH, last_named_cons.
  destruct (last_named n ds); [done|]. unfold put.
  destruct (decide (Name ct = n)) as [<-|Hne].
  - by rewrite lookup_insert_eq.
  - by rewrite lookup_insert_ne.
Qed.

(** C6: [NewCatalog] fails with [ErrMissingCatalog] on an empty list of
    sources; on any other list it fails where the first source fails and
    otherwise returns the catalog obtained by inserting, in the order of
    the sources, every descriptor they produce under its name; the
    catalog then holds, under each name, the last descriptor produced
    with that name, and nothing under a name no descriptor has. *)
Theorem NewCatalog_last_source_wins urls w :
  NewCatalog urls w =
    match urls with
    | [] => (Err ErrMissingCatalog, w)
    | _ :: _ =>
        match sources_descriptors urls w with
        | (Ok ds, w') => (Ok (foldl put ∅ ds), w')
        | (Err e, w') => (Err e, w')
        end
    end
  /\ forall ds n, foldl put ∅ ds !! n = last_named n ds.
Proof.
  split.
  - unfold NewCatalog. destruct urls as [|u rest]; [done|].
    cbn [length Nat.eqb]. apply NewCatalog_loop_descriptors.
  - intros ds n. rewrite foldl_put_lookup, lookup_empty.
    by destruct (last_named n ds).
Qed.

End catalog.

(** A remote catalog followed by a directory: the checktype built from
    the directory replaces the one of the catalog that has its name. *)
Example NewCatalog_remote_then_local :
  exists catalog,
    @NewCatalog Fixtures.catalog_env
      ["https://example.com/catalog.json"; "/checks/vulcan-trivy"] []
    = (Ok catalog, ["/checks/vulcan-trivy"])
    /\ catalog !! "vulcan-nuclei" = Some Fixtures.ct_nuclei
    /\ catalog !! "vulcan-trivy" = Some Fixtures.ct_trivy_local.
Proof. eexists. split; [vm_compute; reflexivity|]. split; reflexivity. Qed.

End CatalogSpec.

(** ** Check and job generation *)

Module EngineSpec.

Import Checktypes Engine.

Section generate.
Context `{GenAPI}.
Implicit Types (h : gmap GoMap.loc (gmap string any)) (st : GenState).

(** [Accepts] is membership in the list of accepted asset types. *)
Lemma Accepts_elem_of ct tag : Accepts ct tag = true <-> tag ∈ Assets ct.
Proof.
  unfold Accepts. induction (Assets ct) as [|a l IH]; simpl.
  - split; [discriminate|]. by intros ?%elem_of_nil.
  - rewrite elem_of_cons. destruct (String.eqb_spec a tag) as [->|Hne].
    + split; [by left | done].
    + rewrite IH. split; [by right | by intros [->|?]].
Qed.

Lemma dedup_subset targets t : t ∈ dedup targets -> t ∈ targets.
Proof.
  induction targets as [|u rest IH]; simpl; [done|].
  rewrite !elem_of_cons, list_elem_of_filter.
  intros [->|[_ Hin]]; [by left | right; by apply IH].
Qed.

(** Every target has a representative with its key after
    deduplication. *)
Lemma dedup_complete targets t :
  t ∈ targets ->
  exists t', t' ∈ dedup targets /\ target_key t' = target_key t.
Proof.
  induction targets as [|u rest IH]; simpl; [by intros ?%elem_of_nil|].
  intros [->|Hin]%elem_of_cons.
  - exists u. split; [left|done].
  - destruct (IH Hin) as (t' & Ht' & Hk).
    destruct (decide (target_key t' = target_key u)) as [Heq|Hne].
    + exists u. split; [left|congruence].
    + exists t'. split; [|done]. right. by apply list_elem_of_filter.
Qed.

Lemma invalid_target_None targets :
  invalid_target targets = None <-> forallb target_ok targets = true.
Proof.
  induction targets as [|t rest IH]; simpl; [done|].
  destruct (target_ok t); simpl; [done|]. split; discriminate.
Qed.

(** The compatible pairs are the pairs of a target kept by the
    deduplication and a checktype of the catalog that accepts it. *)
Lemma elem_of_compatible_pairs (catalog : gmap string Checktype) targets ct t :
  (ct, t) ∈ compatible_pairs catalog targets <->
  t ∈ dedup targets
  /\ (exists n, catalog !! n = Some ct)
  /\ Accepts ct (AssetType_of t) = true.
Proof.
  unfold compatible_pairs. rewrite list_elem_of_bind. split.
  - intros (t' & Hin & Ht'). apply list_elem_of_bind in Hin as (ct' & Hin & Hct').
    apply list_elem_of_fmap in Hct' as ([n ct''] & -> & Hn).
    apply elem_of_map_to_list in Hn. simpl in Hin.
    destruct (Accepts ct'' (AssetType_of t')) eqn:Hacc.
    + apply list_elem_of_singleton in Hin. injection Hin as -> ->. eauto.
    + by apply elem_of_nil in Hin.
  - intros (Ht & (n & Hn) & Hacc). exists t. split; [|done].
    apply list_elem_of_bind. exists ct. split.
    + rewrite Hacc. by apply list_elem_of_singleton.
    + apply list_elem_of_fmap. exists (n, ct). split; [done|].
      by apply elem_of_map_to_list.
Qed.

(** The checks are made for the pairs, one each and in their order. *)
Lemma make_checks_pairs pairs st :
  (fun c => (checktype c, target c)) <$> (make_checks pairs st).1 = pairs.
Proof.
  revert st. induction pairs as [|[ct t] rest IH]; intros st; [done|].
  cbn [make_checks]. unfold new_check.
  destruct (merge_options _ _ _) as [l h'].
  specialize (IH {| heap := h'; drawn := S (drawn st) |}).
  destruct (make_checks rest _) as [cs st2]. cbn [fst] in *.
  rewrite fmap_cons. cbn [checktype target]. by rewrite IH.
Qed.

(** The merge allocates one map, which holds the overrides laid over the
    defaults, and touches no other. *)
Lemma merge_options_allocated defaults overrides h :
  GoMap.allocated h defaults ->
  GoMap.allocated h overrides ->
  merge_options defaults overrides h =
    (fresh (dom h),
     <[fresh (dom h) := GoMap.deref h overrides ∪ GoMap.deref h defaults]> h).
Proof.
  intros Hd Ho. unfold merge_options, GoMap.make. f_equal.
  set (l := fresh (dom h)).
  rewrite (GoMapFacts.copy_allocated _ l defaults ∅) by apply lookup_insert_eq.
  rewrite insert_insert_eq, (right_id_L ∅ (∪)).
  rewrite (GoMapFacts.deref_insert_fresh h defaults ∅ Hd).
  rewrite (GoMapFacts.copy_allocated _ l overrides (GoMap.deref h defaults))
    by apply lookup_insert_eq.
  rewrite insert_insert_eq.
  by rewrite (GoMapFacts.deref_insert_fresh h overrides _ Ho).
Qed.

Lemma allocated_insert_fresh h (r : GoMap.ref) m :
  GoMap.allocated h r -> GoMap.allocated (<[fresh (dom h) := m]> h) r.
Proof.
  destruct r as [l|]; [|done]. simpl. intros Hl.
  rewrite lookup_insert_ne; [done|].
  intros Heq. by apply (GoMapFacts.allocated_not_fresh h l).
Qed.

(** Making the checks leaves every map that existed as it was, and
    gives each check a new map with the merged options. *)
Lemma make_checks_options pairs st :
  pairs_allocated (heap st) pairs ->
  (forall l, is_Some (heap st !! l) ->
     heap (make_checks pairs st).2 !! l = heap st !! l)
  /\ (forall c, c ∈ (make_checks pairs st).1 ->
        exists l, options c = Some l
          /\ heap st !! l = None
          /\ heap (make_checks pairs st).2 !! l =
               Some (GoMap.deref (heap st) (Target_Options (target c))
                     ∪ GoMap.deref (heap st) (Options (checktype c)))).
Proof.
  revert st. induction pairs as [|[ct t] rest IH]; intros st Hall.
  { split; [done|]. by intros c ?%elem_of_nil. }
  destruct (Hall ct t) as [Hd Ho]; [left|].
  cbn [make_checks]. unfold new_check.
  rewrite (merge_options_allocated _ _ _ Hd Ho).
  set (l1 := fresh (dom (heap st))).
  set (m1 := GoMap.deref (heap st) (Target_Options t) ∪ GoMap.deref (heap st) (Options ct)).
  set (st1 := {| heap := <[l1 := m1]> (heap st); drawn := S (drawn st) |}).
  assert (Hall1 : pairs_allocated (heap st1) rest).
  { intros ct' t' Hin. destruct (Hall ct' t') as [Hd' Ho']; [by right|].
    split; by apply allocated_insert_fresh. }
  destruct (IH st1 Hall1) as [Hframe Hnew].
  pose proof (make_checks_pairs rest st1) as Hp.
  destruct (make_checks rest st1) as [cs st2]. simpl in *.
  assert (Hl1 : heap st !! l1 = None) by apply GoMapFacts.fresh_not_allocated.
  split.
  - intros l Hl. rewrite Hframe.
    + apply lookup_insert_ne. intros <-. rewrite Hl1 in Hl. by destruct Hl.
    + rewrite lookup_insert_ne; [done|].
      intros <-. rewrite Hl1 in Hl. by destruct Hl.
  - intros c [->|Hc]%elem_of_cons.
    + exists l1. simpl. split; [done|]. split; [done|].
      rewrite Hframe; by rewrite lookup_insert_eq.
    + destruct (Hnew c Hc) as (l & Hopt & Hnone & Hsome).
      apply lookup_insert_None in Hnone as [Hnone Hne].
      exists l. split; [done|]. split; [done|]. rewrite Hsome.
      assert (Hpair : (checktype c, target c) ∈ rest).
      { rewrite <- Hp. apply list_elem_of_fmap. by exists c. }
      destruct (Hall (checktype c) (target c)) as [Hd' Ho']; [by right|].
      unfold l1. by rewrite !GoMapFacts.deref_insert_fresh.
Qed.

(** With valid targets generation succeeds and makes the checks of the
    compatible pairs. *)
Lemma generateChecks_valid (catalog : gmap string Checktype) targets st :
  forallb target_ok targets = true ->
  generateChecks catalog targets st =
    (Ok (make_checks (compatible_pairs catalog targets) st).1,
     (make_checks (compatible_pairs catalog targets) st).2).
Proof.
  intros Hvalid%invalid_target_None. unfold generateChecks. rewrite Hvalid.
  by destruct (make_checks _ st).
Qed.

Lemma check_of_pair pairs st ct t :
  (ct, t) ∈ pairs <->
  exists c, c ∈ (make_checks pairs st).1 /\ checktype c = ct /\ target c = t.
Proof.
  rewrite <- (make_checks_pairs pairs st) at 1. rewrite list_elem_of_fmap.
  split.
  - intros (c & Heq & Hc). injection Heq as -> ->. eauto.
  - intros (c & Hc & <- & <-). eauto.
Qed.

(** A check exists for every checktype of the catalog and every target
    it accepts. *)
Lemma compatible_check_exists (catalog : gmap string Checktype) targets st n ct t :
  catalog !! n = Some ct ->
  t ∈ targets ->
  AssetType_of t ∈ Assets ct ->
  exists c, c ∈ (make_checks (compatible_pairs catalog targets) st).1
            /\ checktype c = ct /\ target_key (target c) = target_key t.
Proof.
  intros Hn Ht Hacc.
  destruct (dedup_complete targets t Ht) as (t' & Ht' & Hkey).
  assert (Hpair : (ct, t') ∈ compatible_pairs catalog targets).
  { apply elem_of_compatible_pairs. split; [done|]. split; [eauto|].
    apply Accepts_elem_of. injection Hkey as _ Hat. by rewrite Hat. }
  apply (check_of_pair _ st) in Hpair as (c & Hc & Hct & Htg).
  exists c. by rewrite Htg.
Qed.

(** Every check is of a checktype of the catalog and a target it
    accepts. *)
Lemma check_is_compatible (catalog : gmap string Checktype) targets st c :
  c ∈ (make_checks (compatible_pairs catalog targets) st).1 ->
  (exists n, catalog !! n = Some (checktype c))
  /\ target c ∈ targets
  /\ AssetType_of (target c) ∈ Assets (checktype c).
Proof.
  intros Hc.
  assert (Hpair : (checktype c, target c) ∈ compatible_pairs catalog targets).
  { apply (check_of_pair _ st). eauto. }
  apply elem_of_compatible_pairs in Hpair as (Ht & Hn & Hacc).
  split; [done|]. split; [by apply dedup_subset|]. by apply Accepts_elem_of.
Qed.

(** C4: for a catalog and targets whose asset types are all valid,
    check generation succeeds, and a check is produced for a checktype of
    the catalog and a target of the list exactly when the asset type of
    the target is among the asset types the checktype accepts; every
    check produced is of such a pair; and when no pair is compatible the
    result is the empty list. *)
Theorem generateChecks_compatibility (catalog : gmap string Checktype) targets st :
  forallb target_ok targets = true ->
  exists checks st',
    generateChecks catalog targets st = (Ok checks, st')
    /\ (forall n ct t, catalog !! n = Some ct -> t ∈ targets ->
          ((exists c, c ∈ checks /\ checktype c = ct
                      /\ target_key (target c) = target_key t)
           <-> AssetType_of t ∈ Assets ct))
    /\ (forall c, c ∈ checks ->
          (exists n, catalog !! n = Some (checktype c))
          /\ target c ∈ targets
          /\ AssetType_of (target c) ∈ Assets (checktype c))
    /\ ((forall n ct t, catalog !! n = Some ct -> t ∈ targets ->
           AssetType_of t ∉ Assets ct) ->
        checks = []).
Proof.
  intros Hvalid. eexists _, _. split; [by apply generateChecks_valid|].
  split; [|split].
  - intros n ct t Hn Ht. split.
    + intros (c & Hc & <- & Hkey).
      destruct (check_is_compatible _ _ _ _ Hc) as (_ & _ & Hacc).
      injection Hkey as _ <-. done.
    + by apply compatible_check_exists with n.
  - apply check_is_compatible.
  - intros Hnone.
    destruct (make_checks _ st).1 as [|c cs] eqn:Hcs; [done|]. exfalso.
    assert (Hc : c ∈ (make_checks (compatible_pairs catalog targets) st).1)
      by (rewrite Hcs; left).
    destruct (check_is_compatible _ _ _ _ Hc) as ((n & Hn) & Ht & Hacc).
    by apply (Hnone n (checktype c) (target c)).
Qed.

(** C5: for a catalog and valid targets whose option maps are allocated,
    check generation succeeds and every check it makes has, under each
    key, the value of the target's options when the target has the key
    and the value of the checktype's default options otherwise; the map
    of the check is a new map; the default options of the checktype, and
    every map that existed before, hold what they held; and there is
    such a check for every checktype and every target it accepts. *)
Theorem generateChecks_options_merge (catalog : gmap string Checktype) targets st :
  forallb target_ok targets = true ->
  (forall n ct, catalog !! n = Some ct -> GoMap.allocated (heap st) (Options ct)) ->
  (forall t, t ∈ targets -> GoMap.allocated (heap st) (Target_Options t)) ->
  exists checks st',
    generateChecks catalog targets st = (Ok checks, st')
    /\ (forall c, c ∈ checks ->
          let D := GoMap.deref (heap st) (Options (checktype c)) in
          let O := GoMap.deref (heap st) (Target_Options (target c)) in
          let E := GoMap.deref (heap st') (options c) in
          (forall k, E !! k = match O !! k with Some v => Some v | None => D !! k end)
          /\ (exists l, options c = Some l /\ heap st !! l = None)
          /\ GoMap.deref (heap st') (Options (checktype c)) = D)
    /\ (forall l, is_Some (heap st !! l) -> heap st' !! l = heap st !! l)
    /\ (forall n ct t, catalog !! n = Some ct -> t ∈ targets ->
          AssetType_of t ∈ Assets ct ->
          exists c, c ∈ checks /\ checktype c = ct
                    /\ target_key (target c) = target_key t).
Proof.
  intros Hvalid Hcat Htg. eexists _, _. split; [by apply generateChecks_valid|].
  assert (Hall : pairs_allocated (heap st) (compatible_pairs catalog targets)).
  { intros ct t (Ht & (n & Hn) & _)%elem_of_compatible_pairs.
    split; [by apply Hcat with n|]. by apply Htg, dedup_subset. }
  destruct (make_checks_options _ st Hall) as [Hframe Hnew].
  split; [|split; [done|]].
  - intros c Hc. cbv zeta.
    destruct (Hnew c Hc) as (l & Hopt & Hnone & Hsome).
    split; [|split; [eauto|]].
    + intros k. rewrite Hopt. unfold GoMap.deref at 1. rewrite Hsome. simpl.
      rewrite lookup_union.
      by destruct (_ !! k), (_ !! k).
    + destruct (check_is_compatible _ _ _ _ Hc) as ((n & Hn) & _ & _).
      specialize (Hcat n _ Hn).
      destruct (Options (checktype c)) as [l'|]; [|done].
      unfold GoMap.deref. by rewrite Hframe.
  - intros n ct t. apply compatible_check_exists.
Qed.

(** The only error of the validation of required variables. *)
Lemma required_vars_non_string vars v :
  v ∈ vars -> (forall s, v ≠ AString s) -> required_vars vars = Err ErrVarType.
Proof.
  intros Hin Hv. induction vars as [|a rest IH]; [by apply elem_of_nil in Hin|].
  apply elem_of_cons in Hin as [<-|Hin].
  - destruct v; try done. by destruct (Hv s).
  - simpl. rewrite (IH Hin). by destruct a.
Qed.

Lemma required_vars_error vars e : required_vars vars = Err e -> e = ErrVarType.
Proof.
  revert e. induction vars as [|a rest IH]; intros e; [done|].
  simpl. destruct a; try congruence.
  destruct (required_vars rest) as [vs|e']; [done|].
  intros [= <-]. by apply IH.
Qed.

(** One check with a required variable that is not a string fails the
    projection of the whole list. *)
Lemma jobs_of_checks_non_string h checks c :
  c ∈ checks ->
  required_vars (RequiredVars (checktype c)) = Err ErrVarType ->
  jobs_of_checks h checks = Err ErrVarType.
Proof.
  intros Hin Hc. induction checks as [|c' rest IH]; [by apply elem_of_nil in Hin|].
  cbn [jobs_of_checks]. unfold job_of_check.
  apply elem_of_cons in Hin as [<-|Hin].
  - by rewrite Hc.
  - destruct (required_vars (RequiredVars (checktype c'))) as [vs|e] eqn:Hc'.
    + by rewrite (IH Hin).
    + by rewrite (required_vars_error _ _ Hc').
Qed.

(** C7: for valid targets, a catalog with a checktype whose list of
    required variables has an entry that is not a string, and a target of
    the list whose asset type the checktype accepts, job generation
    returns the validation error and no list of jobs. *)
Theorem generateJobs_non_string_required_var
    (catalog : gmap string Checktype) targets st n ct t v :
  forallb target_ok targets = true ->
  catalog !! n = Some ct ->
  v ∈ RequiredVars ct ->
  (forall s, v ≠ AString s) ->
  t ∈ targets ->
  AssetType_of t ∈ Assets ct ->
  exists st', generateJobs catalog targets st = (Err ErrVarType, st').
Proof.
  intros Hvalid Hn Hv Hns Ht Hacc. unfold generateJobs, m_bind.
  rewrite (generateChecks_valid _ _ _ Hvalid).
  destruct (compatible_check_exists catalog targets st n ct t Hn Ht Hacc)
    as (c & Hc & Hct & _).
  eexists. f_equal. apply jobs_of_checks_non_string with c; [done|].
  rewrite Hct. by apply required_vars_non_string with v.
Qed.

End generate.

(** An instance of C4: one checktype accepting [DomainName], a domain
    name and a repository. *)
Lemma generateChecks_compatibility_witness :
  forallb (@target_ok Fixtures.gen_api)
    [Fixtures.target_example; Fixtures.target_repository] = true
  /\ exists checks st',
       @generateChecks Fixtures.gen_api {[ "checktype1" := Fixtures.ct_options ]}
         [Fixtures.target_example; Fixtures.target_repository] Fixtures.gen_state
       = (Ok checks, st').
Proof.
  assert (Hvalid : forallb (@target_ok Fixtures.gen_api)
            [Fixtures.target_example; Fixtures.target_repository] = true)
    by reflexivity.
  split; [exact Hvalid|].
  destruct (@generateChecks_compatibility Fixtures.gen_api
              {[ "checktype1" := Fixtures.ct_options ]}
              [Fixtures.target_example; Fixtures.target_repository]
              Fixtures.gen_state Hvalid) as (checks & st' & Heq & _).
  exists checks, st'. exact Heq.
Defined.

(** An instance of C5: the option-override test of the engine. *)
Lemma generateChecks_options_merge_witness :
  exists checks st',
    @generateChecks Fixtures.gen_api {[ "checktype1" := Fixtures.ct_options ]}
      [Fixtures.target_example] Fixtures.gen_state
    = (Ok checks, st')
    /\ forall l, is_Some (Fixtures.options_heap !! l) ->
                 heap st' !! l = Fixtures.options_heap !! l.
Proof.
  assert (Hvalid : forallb (@target_ok Fixtures.gen_api) [Fixtures.target_example] = true)
    by reflexivity.
  assert (Hcat : forall n ct,
            ({[ "checktype1" := Fixtures.ct_options ]} : gmap string Checktype) !! n = Some ct ->
            GoMap.allocated (heap Fixtures.gen_state) (Options ct)).
  { intros n ct [_ <-]%lookup_singleton_Some. simpl. by eexists. }
  assert (Htg : forall t, t ∈ [Fixtures.target_example] ->
            GoMap.allocated (heap Fixtures.gen_state) (Target_Options t)).
  { intros t ->%list_elem_of_singleton. simpl. by eexists. }
  destruct (@generateChecks_options_merge Fixtures.gen_api _ _ _ Hvalid Hcat Htg)
    as (checks & st' & Heq & _ & Hframe & _).
  exists checks, st'. split; [exact Heq | exact Hframe].
Defined.

(** An instance of C7: the test of the engine with integers as required
    variables. *)
Lemma generateJobs_non_string_required_var_witness :
  exists st',
    @generateJobs Fixtures.gen_api {[ "checktype1" := Fixtures.ct_int_vars ]}
      [Fixtures.target_example] Fixtures.gen_state
    = (Err ErrVarType, st').
Proof.
  apply (@generateJobs_non_string_required_var Fixtures.gen_api
           {[ "checktype1" := Fixtures.ct_int_vars ]} [Fixtures.target_example]
           Fixtures.gen_state "checktype1" Fixtures.ct_int_vars
           Fixtures.target_example (AInt 1)).
  - reflexivity.
  - apply lookup_singleton_eq.
  - simpl. left.
  - discriminate.
  - left.
  - simpl. left.
Defined.

(** The checks and the jobs of the fixtures, computed. *)
Example generateChecks_override_options :
  exists c st',
    @generateChecks Fixtures.gen_api {[ "checktype1" := Fixtures.ct_options ]}
      [Fixtures.target_example; Fixtures.target_example; Fixtures.target_repository]
      Fixtures.gen_state
    = (Ok [c], st')
    /\ GoMap.deref (heap st') (options c)
       = {[ "option1" := AString "checktype value 1";
            "option2" := AString "target value 2";
            "option3" := AString "checktype value 3" ]}.
Proof. eexists _, _. split; vm_compute; reflexivity. Qed.

Example generateChecks_invalid_asset_type :
  @generateChecks Fixtures.gen_api {[ "checktype1" := Fixtures.ct_options ]}
    [mkTarget "example.com" "InvalidAssetType" None] Fixtures.gen_state
  = (Err (ErrAssetType "InvalidAssetType"), Fixtures.gen_state).
Proof. reflexivity. Qed.

End EngineSpec.

(** ** The report store: uploads, overwriting and the summary *)

Module ExtraStore.

Import Engine Store.

Section store.
Context `{ReportAPI}.
Implicit Types (rs : reportStore) (h : gmap GoMap.loc (gmap string Report)).

(** The effect of an upload of kind ["reports"] whose content decodes. *)
Lemma upload_decoded checkID startedAt content rs h r :
  UnmarshalJSONTimeAsString content = Ok r ->
  let res := UploadCheckData checkID "reports" startedAt content rs h in
  res.1 = ("", None)
  /\ stored res.2.1 res.2.2 = <[checkID := r]> (stored rs h)
  /\ (forall l, reports rs = Some l -> reports res.2.1 = Some l)
  /\ (forall l, reports rs ≠ Some l -> is_Some (h !! l) -> res.2.2 !! l = h !! l).
Proof.
  intros Hdec. unfold UploadCheckData, init_reports, stored.
  rewrite String.eqb_refl.
  destruct rs as [[l0|]]; cbn [reports]; rewrite Hdec; cbn [fst snd reports].
  - unfold GoMap.set. rewrite GoMapFacts.deref_insert_eq.
    split; [done|]. split; [done|]. split; [done|].
    intros l Hne _. apply lookup_insert_ne. congruence.
  - unfold GoMap.make, GoMap.set. cbn [fst snd reports].
    rewrite !GoMapFacts.deref_insert_eq.
    split; [done|]. split; [done|]. split; [done|].
    intros l _ Hl. rewrite insert_insert_eq. apply lookup_insert_ne.
    intros <-. by apply (GoMapFacts.allocated_not_fresh h (fresh (dom h))).
Qed.

(** X1: an upload of kind ["reports"] whose content decodes returns no
    error; afterwards the store holds the decoded report under the check
    identifier, whatever it held there before, and holds under every
    other identifier what it held before; a store that had a map keeps
    that map object, and no other map object changes. *)
Theorem UploadCheckData_stores_report checkID startedAt content rs h r :
  UnmarshalJSONTimeAsString content = Ok r ->
  let res := UploadCheckData checkID "reports" startedAt content rs h in
  res.1.2 = None
  /\ stored res.2.1 res.2.2 !! checkID = Some r
  /\ (forall other, other ≠ checkID ->
        stored res.2.1 res.2.2 !! other = stored rs h !! other)
  /\ (forall l, reports rs = Some l -> reports res.2.1 = Some l)
  /\ (forall l, reports rs ≠ Some l -> is_Some (h !! l) -> res.2.2 !! l = h !! l).
Proof.
  intros Hdec. destruct (upload_decoded checkID startedAt content rs h r Hdec)
    as (Hres & Hst & Hkeep & Hframe).
  cbv zeta. rewrite Hres, Hst. split; [done|].
  split; [apply lookup_insert_eq|].
  split; [|done]. intros other Hne. by apply lookup_insert_ne.
Qed.

(** X2: two uploads of kind ["reports"] under the same check identifier,
    both decoding, leave the store as the second alone would: the entry
    is the second report, the first is gone, and the store has as many
    entries as after the first upload. *)
Theorem UploadCheckData_twice_last_wins checkID t1 t2 content1 content2 rs h r1 r2 :
  UnmarshalJSONTimeAsString content1 = Ok r1 ->
  UnmarshalJSONTimeAsString content2 = Ok r2 ->
  let first := UploadCheckData checkID "reports" t1 content1 rs h in
  let second := UploadCheckData checkID "reports" t2 content2 first.2.1 first.2.2 in
  let alone := UploadCheckData checkID "reports" t2 content2 rs h in
  stored second.2.1 second.2.2 = stored alone.2.1 alone.2.2
  /\ stored second.2.1 second.2.2 !! checkID = Some r2
  /\ size (stored second.2.1 second.2.2) = size (stored first.2.1 first.2.2).
Proof.
  intros Hdec1 Hdec2. cbv zeta.
  destruct (upload_decoded checkID t1 content1 rs h r1 Hdec1) as (_ & Hst1 & _).
  destruct (upload_decoded checkID t2 content2 rs h r2 Hdec2) as (_ & Hst & _).
  destruct (upload_decoded checkID t2 content2
              (UploadCheckData checkID "reports" t1 content1 rs h).2.1
              (UploadCheckData checkID "reports" t1 content1 rs h).2.2 r2 Hdec2)
    as (_ & Hst2 & _).
  rewrite Hst2, Hst1, Hst, insert_insert_eq.
  split; [done|]. split; [apply lookup_insert_eq|].
  by rewrite !map_size_insert.
Qed.

(** An upload keeps the map of the store allocated, and leaves a map in
    the store. *)
Lemma after_upload_allocated (st : reportStore * gmap GoMap.loc (gmap string Report)) u :
  GoMap.allocated st.2 (reports st.1) ->
  exists l, reports (after_upload st u).1 = Some l
            /\ is_Some ((after_upload st u).2 !! l).
Proof.
  destruct st as [[[l0|]] h]; unfold after_upload, UploadCheckData, init_reports;
    cbn [fst snd reports GoMap.allocated GoMap.make]; intros Hal.
  - exists l0.
    destruct (String.eqb _ "reports");
      [destruct (UnmarshalJSONTimeAsString _)|destruct (String.eqb _ "logs")];
      cbn [fst snd reports]; split; try done.
    unfold GoMap.set. rewrite lookup_insert_eq. by eexists.
  - exists (fresh (dom h)).
    destruct (String.eqb _ "reports");
      [destruct (UnmarshalJSONTimeAsString _)|destruct (String.eqb _ "logs")];
      cbn [fst snd reports]; split; try done;
      unfold GoMap.set; rewrite ?lookup_insert_eq; by eexists.
Qed.

(** X3: from the zero value of the store, after any list of uploads, of
    any kind and content, the map of the store is an allocated map
    object; after at least one upload it is not nil, so that [Reports]
    returns a map that is not nil. *)
Theorem uploads_keep_map_allocated (us : list upload) :
  let st := after_uploads us (mkReportStore None, ∅) in
  GoMap.allocated st.2 (reports st.1)
  /\ (us ≠ [] -> reports st.1 ≠ None /\ (Reports st.1 st.2).1 ≠ None).
Proof.
  cbv zeta. induction us as [|u us IH] using rev_ind; [done|].
  destruct IH as [IH _]. unfold after_uploads in *. rewrite foldl_app. cbn [foldl].
  destruct (after_upload_allocated _ u IH) as (l & Hl & Hsome).
  split.
  - rewrite Hl. exact Hsome.
  - intros _. unfold Reports, GoMap.clone. by rewrite Hl.
Qed.

End store.

Section summary.
Context `{ReportFields}.
Implicit Types (rs : reportStore) (h : gmap GoMap.loc (gmap string Report)).

(** X4: after an upload of kind ["reports"] whose content decodes, the
    summary is, up to the order of its lines, the line of the new report
    followed by the lines the other check identifiers had before; it has
    one line per check identifier of the store. *)
Theorem Summary_after_upload checkID startedAt content rs h r :
  UnmarshalJSONTimeAsString content = Ok r ->
  let res := UploadCheckData checkID "reports" startedAt content rs h in
  Summary res.2.1 res.2.2
    ≡ₚ summary_line r
       :: ((fun p => summary_line p.2) <$> map_to_list (delete checkID (stored rs h)))
  /\ length (Summary res.2.1 res.2.2) = size (stored res.2.1 res.2.2).
Proof.
  intros Hdec. cbv zeta.
  destruct (upload_decoded checkID startedAt content rs h r Hdec) as (_ & Hst & _).
  unfold Summary. rewrite Hst. split.
  - rewrite <- insert_delete_eq.
    rewrite map_to_list_insert by apply lookup_delete_eq. done.
  - rewrite length_fmap. apply length_map_to_list.
Qed.

End summary.

(** An instance of X1. *)
Lemma UploadCheckData_stores_report_witness :
  let res := @UploadCheckData Fixtures.report_api "check-0" "reports" 0%Z
               MoreFixtures.content_a (mkReportStore None) ∅ in
  @stored Fixtures.report_api res.2.1 res.2.2 !! "check-0"
  = Some MoreFixtures.content_a.
Proof.
  exact (proj1 (proj2 (@UploadCheckData_stores_report Fixtures.report_api
           "check-0" 0%Z MoreFixtures.content_a (mkReportStore None) ∅
           MoreFixtures.content_a eq_refl))).
Defined.

(** An instance of X2. *)
Lemma UploadCheckData_twice_last_wins_witness :
  let first := @UploadCheckData Fixtures.report_api "check-0" "reports" 0%Z
                 MoreFixtures.content_a (mkReportStore None) ∅ in
  let second := @UploadCheckData Fixtures.report_api "check-0" "reports" 1%Z
                  MoreFixtures.content_b first.2.1 first.2.2 in
  @stored Fixtures.report_api second.2.1 second.2.2 !! "check-0"
  = Some MoreFixtures.content_b.
Proof.
  exact (proj1 (proj2 (@UploadCheckData_twice_last_wins Fixtures.report_api
           "check-0" 0%Z 1%Z MoreFixtures.content_a MoreFixtures.content_b
           (mkReportStore None) ∅ _ _ eq_refl eq_refl))).
Defined.

(** An instance of X3: one upload of logs. *)
Lemma uploads_keep_map_allocated_witness :
  let st := @after_uploads Fixtures.report_api
              [mkUpload "check-0" "logs" 0%Z MoreFixtures.content_bad]
              (mkReportStore None, ∅) in
  (@Reports Fixtures.report_api st.1 st.2).1 ≠ None.
Proof.
  exact (proj2 (proj2 (@uploads_keep_map_allocated Fixtures.report_api
           [mkUpload "check-0" "logs" 0%Z MoreFixtures.content_bad])
           ltac:(discriminate))).
Defined.

(** An instance of X4. *)
Lemma Summary_after_upload_witness :
  let res := @UploadCheckData Fixtures.report_api "check-0" "reports" 0%Z
               MoreFixtures.content_a (mkReportStore None) ∅ in
  length (@Summary Fixtures.report_api MoreFixtures.report_fields res.2.1 res.2.2)
  = size (@stored Fixtures.report_api res.2.1 res.2.2).
Proof.
  exact (proj2 (@Summary_after_upload Fixtures.report_api MoreFixtures.report_fields
           "check-0" 0%Z MoreFixtures.content_a (mkReportStore None) ∅
           MoreFixtures.content_a eq_refl)).
Defined.

End ExtraStore.

(** ** The catalog: an index by name *)

Module ExtraCatalog.

Import Checktypes.

Section catalog.
Context `{Env}.

Lemma last_named_Some n ct ds :
  last_named n ds = Some ct -> Name ct = n /\ ct ∈ ds.
Proof.
  unfold last_named. intros Hlast.
  assert (Hin : ct ∈ filter (fun ct => Name ct = n) ds).
  { apply last_Some in Hlast as [l' ->]. apply elem_of_app. right. left. }
  by apply list_elem_of_filter in Hin.
Qed.

Lemma last_named_is_Some ct ds : ct ∈ ds -> is_Some (last_named (Name ct) ds).
Proof.
  intros Hin. unfold last_named.
  destruct (last _) eqn:Hlast; [by eexists|].
  apply last_None in Hlast.
  assert (Hf : ct ∈ filter (fun ct' => Name ct' = Name ct) ds)
    by by apply list_elem_of_filter.
  rewrite Hlast in Hf. by apply elem_of_nil in Hf.
Qed.

Lemma foldl_put_size ds (checktypes : gmap string Checktype) :
  size (foldl put checktypes ds) <= size checktypes + length ds.
Proof.
  revert checktypes. induction ds as [|ct ds IH]; intros checktypes; simpl; [lia|].
  specialize (IH (put checktypes ct)). unfold put in *.
  rewrite map_size_insert in IH. destruct (checktypes !! Name ct); simpl in IH; lia.
Qed.

(** X5: a catalog that [NewCatalog] returns is indexed by name: every
    entry is a descriptor that one of the sources produced and sits under
    its own name, every descriptor produced has an entry under its name,
    and the catalog has no more entries than descriptors were
    produced. *)
Theorem NewCatalog_indexed_by_name urls w (catalog : gmap string Checktype) w' :
  NewCatalog urls w = (Ok catalog, w') ->
  exists ds,
    sources_descriptors urls w = (Ok ds, w')
    /\ (forall n ct, catalog !! n = Some ct -> Name ct = n /\ ct ∈ ds)
    /\ (forall ct, ct ∈ ds -> is_Some (catalog !! Name ct))
    /\ size catalog <= length ds.
Proof.
  unfold NewCatalog. destruct urls as [|u rest]; [done|]. cbn [length Nat.eqb].
  rewrite CatalogSpec.NewCatalog_loop_descriptors.
  destruct (sources_descriptors (u :: rest) w) as [[ds|e] w1]; [|done].
  intros [= <- <-]. exists ds. split; [done|]. split; [|split].
  - intros n ct. rewrite CatalogSpec.foldl_put_lookup, lookup_empty.
    destruct (last_named n ds) as [ct'|] eqn:Hlast; [|done].
    intros [= <-]. by apply last_named_Some.
  - intros ct Hin. rewrite CatalogSpec.foldl_put_lookup.
    by destruct (last_named_is_Some ct ds Hin) as [ct' ->].
  - pose proof (foldl_put_size ds ∅) as Hsize. by rewrite map_size_empty in Hsize.
Qed.

End catalog.

(** An instance of X5: a remote catalog followed by a directory. *)
Lemma NewCatalog_indexed_by_name_witness :
  exists ds,
    @sources_descriptors Fixtures.catalog_env
      ["https://example.com/catalog.json"; "/checks/vulcan-trivy"] []
    = (Ok ds,
       (@NewCatalog Fixtures.catalog_env
          ["https://example.com/catalog.json"; "/checks/vulcan-trivy"] []).2).
Proof.
  destruct (@NewCatalog Fixtures.catalog_env
              ["https://example.com/catalog.json"; "/checks/vulcan-trivy"] [])
    as [[catalog|e] w'] eqn:Hnew; [|vm_compute in Hnew; discriminate].
  destruct (@NewCatalog_indexed_by_name Fixtures.catalog_env
              ["https://example.com/catalog.json"; "/checks/vulcan-trivy"] []
              catalog w' Hnew) as (ds & Hds & _).
  exists ds. exact Hds.
Defined.

End ExtraCatalog.

(** ** The build cache: the walk, the archive, the labels and the effects
    of a build *)

Module ExtraBuild.

Import Build BuildTree.










Section labels.
Context `{ManifestAPI}.

(** Merging the labels of an image lays them over those gathered so
    far. *)
Lemma merge_labels_union (labels info : gmap string string) :
  merge_labels labels info = info ∪ labels.
Proof.
  unfold merge_labels.
  apply (map_fold_weak_ind (fun acc m => acc = m ∪ labels)).
  - by rewrite (left_id_L ∅ (∪)).
  - intros k v m acc Hk ->. by rewrite insert_union_l.
Qed.

Lemma foldl_merge_labels_lookup (infos : list (gmap string string)) labels k :
  foldl merge_labels labels infos !! k =
    match last (omap (fun info : gmap string string => info !! k) infos) with
    | Some v => Some v
    | None => labels !! k
    end.
Proof.
  revert labels. induction infos as [|info infos IH]; intros labels; [done|].
  cbn [foldl omap list_omap]. rewrite IH, merge_labels_union, lookup_union.
  change (list_omap ?f ?l) with (omap f l).
  destruct (info !! k) as [v|] eqn:Hinfo.
  - destruct (omap _ infos) as [|v' vs] eqn:Ho; [by destruct (labels !! k)|].
    rewrite last_cons_cons.
    destruct (last (v' :: vs)) eqn:Hlast; [done|]. by apply last_None in Hlast.
  - destruct (last _); [done|]. by destruct (labels !! k).
Qed.

(** X8: [ImageLabels] returns the error of the engine when it cannot
    list the images; otherwise, under each key, the label of the last
    image listed that has the key, and nothing under a key that no image
    listed has. *)
Theorem ImageLabels_last_image_wins image w :
  (forall e, list_err w = Some e -> ImageLabels image w = Err e)
  /\ (list_err w = None ->
      exists infos labels,
        ImageList image w = Ok infos
        /\ ImageLabels image w = Ok labels
        /\ forall k,
             labels !! k
             = last (omap (fun info : gmap string string => info !! k) infos)).
Proof.
  unfold ImageLabels, ImageList. split.
  - by intros e ->.
  - intros ->. eexists _, _. split; [done|]. split; [done|].
    intros k. rewrite foldl_merge_labels_lookup, lookup_empty.
    by destruct (last _).
Qed.

End labels.

(** An instance of X8: an engine that holds no image. *)
Lemma ImageLabels_last_image_wins_witness :
  exists labels,
    ImageLabels "vulcan-mycheck-local" (Fixtures.world Fixtures.t_minute) = Ok labels
    /\ labels !! checktypeNameLabel = None.
Proof.
  destruct (proj2 (ImageLabels_last_image_wins "vulcan-mycheck-local"
              (Fixtures.world Fixtures.t_minute)) eq_refl)
    as (infos & labels & Hinfos & Hlabels & Hlast).
  exists labels. split; [exact Hlabels|].
  rewrite Hlast. unfold ImageList in Hinfos. cbn in Hinfos.
  by injection Hinfos as <-.
Defined.

Section effects.
Context `{ManifestAPI}.

(** The labels [NewImage] attaches to an image. *)
Lemma image_labels_lookup (t manifestContent checktype : string) :
  let labels : gmap string string :=
    <[lastModifiedTimeLabel := t]>
      (<[checktypeManifest := manifestContent]>
         (<[checktypeNameLabel := checktype]> ∅)) in
  labels !! lastModifiedTimeLabel = Some t
  /\ labels !! checktypeNameLabel = Some checktype
  /\ labels !! checktypeManifest = Some manifestContent.
Proof.
  cbv zeta. split; [apply lookup_insert_eq|]. split.
  - rewrite !lookup_insert_ne by done. apply lookup_insert_eq.
  - rewrite lookup_insert_ne by done. apply lookup_insert_eq.
Qed.

(** The engine lists, under a tag just given, the new image alone. *)
Lemma ImageList_tag_image w iname (labels : gmap string string) calls :
  list_err w = None ->
  ImageList iname (with_engine w (tag_image labels (images w) iname) calls)
  = Ok [labels].
Proof.
  intros Hlist. unfold ImageList, with_engine, tag_image. cbn [list_err images].
  rewrite Hlist. f_equal.
  rewrite filter_cons_True by done. cbn [map snd]. f_equal.
  induction (images w) as [|[tag l] imgs IH]; [done|].
  rewrite (filter_cons (fun p => p.1 ≠ iname)). cbn [fst].
  destruct (decide (tag ≠ iname)) as [Hne|Heq]; [|done].
  by rewrite filter_cons_False.
Qed.

(** What a call of [NewImage] is: either it fails before the engine is
    asked and the world is as before, or the engine refuses the request
    and only the record of requests grows, or the image is built. *)
Lemma NewImage_cases iname dir checktype w :
  (exists e, NewImage iname dir checktype w = (Err e, w))
  \/ (exists e req,
        NewImage iname dir checktype w
        = (Err e, with_engine w (images w) (build_calls w ++ [req]))
        /\ req_tags req = [iname])
  \/ (exists modif manifestContent manifest contents,
        lastModified dir w = Ok modif
        /\ os_ReadFile dir ManifestFile w = inl manifestContent
        /\ ParseManifest manifestContent = Ok manifest
        /\ buildTarFromDir dir w = Ok contents
        /\ build_err w = None
        /\ let labels : gmap string string :=
             <[lastModifiedTimeLabel := GoTime.Format_RFC822 modif]>
               (<[checktypeManifest := manifestContent]>
                  (<[checktypeNameLabel := checktype]> ∅)) in
           NewImage iname dir checktype w
           = (Ok (@mkImage _ iname checktype manifest GoTime.zero),
              with_engine w (tag_image labels (images w) iname)
                (build_calls w ++ [mkBuildRequest [iname] labels contents]))).
Proof.
  unfold NewImage.
  destruct (os_ReadFile dir ManifestFile w) as [manifestContent|[[|] e]] eqn:Hread;
    [|eauto..].
  destruct (ParseManifest manifestContent) as [manifest|e] eqn:Hparse; [|eauto].
  destruct (buildTarFromDir dir w) as [contents|e] eqn:Htar; [|eauto].
  destruct (lastModified dir w) as [modif|e] eqn:Hmod; [|eauto].
  unfold BuildImage. destruct (build_err w) as [e|] eqn:Hbuild.
  - right. left. eexists _, _. split; [done|done].
  - right. right. exists modif, manifestContent, manifest, contents.
    by repeat split.
Qed.

(** X9: the labels [NewImage] writes are the ones [InspectImage] reads:
    after a successful [NewImage], on an engine that lists images, the
    image under the name carries exactly the fingerprint of the
    directory as text, the checktype name and the manifest text, and
    [InspectImage] returns the name, the checktype name and the manifest
    of the image built, with the time read back from the fingerprint;
    the value [NewImage] itself returns has the zero time. *)
Theorem NewImage_labels_read_back iname dir checktype w img w' :
  list_err w = None ->
  NewImage iname dir checktype w = (Ok img, w') ->
  exists modif manifestContent labels,
    lastModified dir w = Ok modif
    /\ ImageLabels iname w' = Ok labels
    /\ labels !! lastModifiedTimeLabel = Some (GoTime.Format_RFC822 modif)
    /\ labels !! checktypeNameLabel = Some checktype
    /\ labels !! checktypeManifest = Some manifestContent
    /\ ParseManifest manifestContent = Ok (Image_Manifest img)
    /\ Image_LastModified img = GoTime.zero
    /\ forall t,
         GoTime.Parse_RFC822 (GoTime.Format_RFC822 modif) = Some t ->
         InspectImage iname w'
         = Ok (@mkImage _ iname checktype (Image_Manifest img) t).
Proof.
  intros Hlist Hnew.
  destruct (NewImage_cases iname dir checktype w)
    as [(e & He)|[(e & req & He & _)|
        (modif & manifestContent & manifest & contents & Hmod & _ & Hparse & _ & _ & He)]];
    [congruence..|].
  cbv zeta in He. rewrite He in Hnew. injection Hnew as <- <-.
  eexists modif, manifestContent, _.
  destruct (image_labels_lookup (GoTime.Format_RFC822 modif) manifestContent checktype)
    as (Ht & Hn & Hm).
  assert (Hlabels : ImageLabels iname
            (with_engine w
               (tag_image
                  (<[lastModifiedTimeLabel := GoTime.Format_RFC822 modif]>
                     (<[checktypeManifest := manifestContent]>
                        (<[checktypeNameLabel := checktype]> ∅)))
                  (images w) iname)
               (build_calls w ++
                [mkBuildRequest [iname]
                   (<[lastModifiedTimeLabel := GoTime.Format_RFC822 modif]>
                      (<[checktypeManifest := manifestContent]>
                         (<[checktypeNameLabel := checktype]> ∅))) contents]))
          = Ok (<[lastModifiedTimeLabel := GoTime.Format_RFC822 modif]>
                     (<[checktypeManifest := manifestContent]>
                        (<[checktypeNameLabel := checktype]> ∅)))).
  { unfold ImageLabels. rewrite ImageList_tag_image by done. cbn [foldl].
    by rewrite merge_labels_union, (right_id_L ∅ (∪)). }
  split; [done|]. split; [exact Hlabels|].
  split; [done|]. split; [done|]. split; [done|]. split; [done|]. split; [done|].
  intros t Hp. unfold InspectImage. rewrite Hlabels.
  cbv zeta in Ht, Hn, Hm. by rewrite Ht, Hp, Hn, Hm, Hparse.
Qed.

(** X10: [NewImage] never writes to the file system and sends at most
    one build request, tagged with the name of the image; when it fails
    the engine holds the images it held; when it succeeds exactly one
    request was sent and the image built takes the tag from whichever
    image had it. *)
Theorem NewImage_engine_effects iname dir checktype w :
  let res := NewImage iname dir checktype w in
  fs res.2 = fs w
  /\ match res.1 with
     | Err _ =>
         images res.2 = images w
         /\ (build_calls res.2 = build_calls w
             \/ exists req, build_calls res.2 = build_calls w ++ [req]
                            /\ req_tags req = [iname])
     | Ok img =>
         Image_Name img = iname
         /\ Image_ChecktypeName img = checktype
         /\ exists req,
              build_calls res.2 = build_calls w ++ [req]
              /\ req_tags req = [iname]
              /\ images res.2 = tag_image (req_labels req) (images w) iname
     end.
Proof.
  cbv zeta.
  destruct (NewImage_cases iname dir checktype w)
    as [(e & ->)|[(e & req & -> & Htag)|
        (modif & manifestContent & manifest & contents & _ & _ & _ & _ & _ & He)]].
  - cbn [fst snd]. eauto.
  - cbn [fst snd with_engine fs images build_calls]. eauto 10.
  - cbv zeta in He. rewrite He. cbn [fst snd with_engine fs images build_calls].
    split; [done|]. split; [done|]. split; [done|]. eexists. by repeat split.
Qed.



Lemma InspectImage_Name image w i : InspectImage image w = Ok i -> Image_Name i = image.
Proof.
  unfold InspectImage.
  destruct (ImageLabels image w) as [labels|]; [|done].
  destruct (labels !! lastModifiedTimeLabel) as [text|]; [|done].
  destruct (GoTime.Parse_RFC822 text); [|done].
  destruct (labels !! checktypeNameLabel); [|done].
  destruct (labels !! checktypeManifest) as [m|]; [|done].
  destruct (ParseManifest m); [|done].
  by intros [= <-].
Qed.

Lemma Image_Checktype_fields i ct :
  Image_Checktype i = Ok ct ->
  Checktypes.Name ct = Image_ChecktypeName i
  /\ Checktypes.Image ct = Image_Name i
  /\ Checktypes.RequiredVars ct
     = map Checktypes.AString (Manifest_RequiredVars (Image_Manifest i)).
Proof.
  unfold Image_Checktype.
  destruct (UnmarshalOptions _); [|done]. destruct (AssetTypes_Strings _); [|done].
  by intros [= <-].
Qed.

(** X12: the descriptor a successful [Code.Build] returns names, as its
    image, the local tag of the checktype ([<base of the directory>-local]),
    whether the image was reused or built, and every required variable
    it declares is a string. *)
Theorem Build_descriptor c w ct w' :
  Build c w = (Ok ct, w') ->
  Checktypes.Image ct = imageName c
  /\ forall v, v ∈ Checktypes.RequiredVars ct -> exists s, v = Checktypes.AString s.
Proof.
  unfold Build, NewDockerdClient.
  destruct (client_err w); [done|].
  destruct (isModified c w) as [[|]|e]; cbn [negb]; [| |done].
  - unfold rebuild, m_bind, goBuildDir, m_lift.
    destruct (gobuild_err w !! _); [done|]. cbv beta iota.
    pose proof (NewImage_engine_effects (imageName c) c (name c) w) as [_ Hnew].
    cbv zeta in Hnew.
    destruct (NewImage (imageName c) c (name c) w) as [[img|e] w1]; [|done].
    cbn [fst snd] in Hnew. destruct Hnew as (Hname & _).
    destruct (Image_Checktype img) as [ct'|] eqn:Hct; [|done].
    intros [= <- <-]. apply Image_Checktype_fields in Hct as (_ & Himg & Hvars).
    split; [congruence|]. rewrite Hvars.
    intros v (s & <- & _)%list_elem_of_In%in_map_iff. eauto.
  - unfold reuse, m_bind, m_lift.
    destruct (InspectImage (imageName c) w) as [img|] eqn:Hi; [|done].
    destruct (Image_Checktype img) as [ct'|] eqn:Hct; [|done].
    intros [= <- <-]. apply Image_Checktype_fields in Hct as (_ & Himg & Hvars).
    apply InspectImage_Name in Hi.
    split; [congruence|]. rewrite Hvars.
    intros v (s & <- & _)%list_elem_of_In%in_map_iff. eauto.
Qed.

(** X13: [Code.Build] fails, before anything is compiled or any build
    request is sent and leaving the world as it was, when no client can
    be made, when the engine cannot list the images (an error that is not
    taken for a missing image), and when the image is a prior build but
    the directory cannot be fingerprinted. *)
Theorem Build_fails_before_building c w :
  (forall e, client_err w = Some e ->
     Build c w
     = (Err (ErrWrap "unable to get Docker client" (ErrWrap "new Docker API Client" e)), w))
  /\ (client_err w = None ->
      forall e, list_err w = Some e -> errors_As_NoChecktypeImage e = false ->
        Build c w = (Err (ErrWrap "unable to read image labels" e), w))
  /\ (client_err w = None ->
      forall image e,
        InspectImage (imageName c) w = Ok image -> lastModified c w = Err e ->
        Build c w
        = (Err (ErrWrap "getting the last modification time for the checktype" e), w)).
Proof.
  unfold Build, NewDockerdClient. split; [|split].
  - by intros e ->.
  - intros -> e Hlist Has. unfold isModified, InspectImage, ImageLabels, ImageList.
    rewrite Hlist. cbn [errors_As_NoChecktypeImage]. by rewrite Has.
  - intros -> image e Hi Hd. unfold isModified. by rewrite Hi, Hd.
Qed.

End effects.


(** An instance of X9: the first build of the fixtures. *)
Lemma NewImage_labels_read_back_witness :
  exists labels,
    ImageLabels "vulcan-mycheck-local"
      (@NewImage Fixtures.manifest_api "vulcan-mycheck-local" Fixtures.check_dir
         "vulcan-mycheck" (Fixtures.world Fixtures.t_minute)).2 = Ok labels
    /\ labels !! checktypeNameLabel = Some "vulcan-mycheck".
Proof.
  destruct (@NewImage Fixtures.manifest_api "vulcan-mycheck-local" Fixtures.check_dir
              "vulcan-mycheck" (Fixtures.world Fixtures.t_minute))
    as [[img|e] w'] eqn:Hnew; [|vm_compute in Hnew; discriminate].
  destruct (@NewImage_labels_read_back Fixtures.manifest_api "vulcan-mycheck-local"
              Fixtures.check_dir "vulcan-mycheck" (Fixtures.world Fixtures.t_minute)
              img w' eq_refl Hnew)
    as (modif & manifestContent & labels & _ & Hlabels & _ & Hname & _).
  exists labels. split; [exact Hlabels|exact Hname].
Defined.

(** An instance of X12: the first build of the fixtures. *)
Lemma Build_descriptor_witness :
  exists ct,
    (@Build Fixtures.manifest_api Fixtures.check_dir
       (Fixtures.world Fixtures.t_minute)).1 = Ok ct
    /\ Checktypes.Image ct = imageName Fixtures.check_dir.
Proof.
  destruct (@Build Fixtures.manifest_api Fixtures.check_dir
              (Fixtures.world Fixtures.t_minute))
    as [[ct|e] w'] eqn:Hbuild; [|vm_compute in Hbuild; discriminate].
  exists ct. split; [reflexivity|].
  exact (proj1 (@Build_descriptor Fixtures.manifest_api Fixtures.check_dir
           (Fixtures.world Fixtures.t_minute) ct w' Hbuild)).
Defined.

(** An instance of X13: the engine cannot be reached. *)
Lemma Build_fails_before_building_witness :
  @Build Fixtures.manifest_api Fixtures.check_dir MoreFixtures.world_unreachable
  = (Err (ErrWrap "unable to read image labels" (ErrNew "connection refused")),
     MoreFixtures.world_unreachable).
Proof.
  exact (proj1 (proj2 (@Build_fails_before_building Fixtures.manifest_api
           Fixtures.check_dir MoreFixtures.world_unreachable))
           eq_refl (ErrNew "connection refused") eq_refl eq_refl).
Defined.

(** *** The name of a checktype and of its image *)

Lemma list_ascii_of_string_append a b :
  list_ascii_of_string (a +:+ b) = list_ascii_of_string a ++ list_ascii_of_string b.
Proof. induction a as [|c a IH]; [done|]. simpl. by rewrite IH. Qed.

Lemma take_element_app l r :
  forallb (fun c => negb (is_slash c)) l = true ->
  take_element (l ++ "/"%char :: r) = l.
Proof.
  induction l as [|c l IH]; [done|]. simpl.
  intros [Hc Hl]%andb_prop. destruct (is_slash c); [done|]. by rewrite IH.
Qed.

Lemma slash_free_rev x :
  x ≠ "" -> BuildPath.slash_free x = true ->
  exists c l,
    rev (list_ascii_of_string x) = c :: l
    /\ is_slash c = false
    /\ forallb (fun c => negb (is_slash c)) (c :: l) = true.
Proof.
  unfold BuildPath.slash_free. intros Hne Hfree.
  destruct (rev (list_ascii_of_string x)) as [|c l] eqn:Hrev.
  { exfalso. apply Hne. rewrite <- (string_of_list_ascii_of_string x).
    rewrite <- (rev_involutive (list_ascii_of_string x)), Hrev. done. }
  assert (Hall : forallb (fun c => negb (is_slash c)) (c :: l) = true).
  { apply forallb_forall. intros a Ha. rewrite <- Hrev in Ha. apply in_rev in Ha.
    by apply (proj1 (forallb_forall _ _) Hfree). }
  exists c, l. split; [done|]. split; [|done].
  simpl in Hall. apply andb_prop in Hall as [Hc _]. by destruct (is_slash c).
Qed.

Lemma append_not_empty a b : a +:+ "/" +:+ b ≠ "".
Proof. by destruct a. Qed.

(** X14: the name of a checktype is the last element of its directory:
    for a directory [dir/x] with [x] a name without slash, written with
    or without a slash at the end, the name is [x] and the image is
    [x-local], whatever [dir] is; two directories with the same last
    element have the same image. *)
Theorem imageName_last_element dir x :
  x ≠ "" ->
  BuildPath.slash_free x = true ->
  name (dir +:+ "/" +:+ x) = x
  /\ name (dir +:+ "/" +:+ x +:+ "/") = x
  /\ imageName (dir +:+ "/" +:+ x) = x +:+ "-local"
  /\ forall dir', imageName (dir' +:+ "/" +:+ x) = imageName (dir +:+ "/" +:+ x).
Proof.
  intros Hne Hfree.
  destruct (slash_free_rev x Hne Hfree) as (c & l & Hrev & Hc & Hall).
  assert (Hname : forall d, name (d +:+ "/" +:+ x) = x).
  { intros d. unfold name, path_Base.
    destruct (String.eqb_spec (d +:+ "/" +:+ x) "") as [Hempty|_];
      [by apply append_not_empty in Hempty|].
    rewrite !list_ascii_of_string_append, rev_app_distr.
    cbn [list_ascii_of_string app rev]. rewrite Hrev, <- app_assoc.
    cbn [app drop_slashes]. rewrite Hc.
    change (c :: l ++ "/"%char :: rev (list_ascii_of_string d))
      with ((c :: l) ++ "/"%char :: rev (list_ascii_of_string d)).
    rewrite take_element_app by done.
    rewrite <- Hrev, rev_involutive. apply string_of_list_ascii_of_string. }
  split; [apply Hname|]. split; [|split].
  - unfold name, path_Base.
    destruct (String.eqb_spec (dir +:+ "/" +:+ x +:+ "/") "") as [Hempty|_];
      [by apply append_not_empty in Hempty|].
    rewrite !list_ascii_of_string_append, !rev_app_distr.
    cbn [list_ascii_of_string app rev]. rewrite Hrev, <- !app_assoc.
    cbn [app drop_slashes]. change (is_slash "/") with true. cbv iota.
    rewrite Hc.
    change (c :: l ++ "/"%char :: rev (list_ascii_of_string dir))
      with ((c :: l) ++ "/"%char :: rev (list_ascii_of_string dir)).
    rewrite take_element_app by done.
    rewrite <- Hrev, rev_involutive. apply string_of_list_ascii_of_string.
  - unfold imageName. by rewrite Hname.
  - intros dir'. unfold imageName. by rewrite !Hname.
Qed.

(** An instance of X14: two directories of checks with the same last
    element. *)
Lemma imageName_last_element_witness :
  imageName ("/home/user/checks" +:+ "/" +:+ "vulcan-mycheck")
  = imageName ("/checks" +:+ "/" +:+ "vulcan-mycheck").
Proof.
  exact (proj2 (proj2 (proj2 (imageName_last_element "/checks" "vulcan-mycheck"
           ltac:(discriminate) eq_refl))) "/home/user/checks").
Defined.

End ExtraBuild.

(** ** Runtimes, gateways and the output of the engine *)

Module ExtraContainers.

Import Containers.

Lemma runtimeNames_lookup s r :
  runtimeNames !! s = Some r ->
  (s, r) ∈ [("Dockerd", RuntimeDockerd);
            ("DockerdDockerDesktop", RuntimeDockerdDockerDesktop);
            ("DockerdRancherDesktop", RuntimeDockerdRancherDesktop);
            ("DockerdPodmanDesktop", RuntimeDockerdPodmanDesktop)].
Proof.
  unfold runtimeNames. intros Hs.
  repeat (apply lookup_insert_Some in Hs as [[<- <-]|[_ Hs]];
          [repeat first [by left | right]|]).
  apply lookup_singleton_Some in Hs as [<- <-]. repeat first [by left | right].
Qed.

(** X15: every runtime has one name and only one that [ParseRuntime]
    reads as it; [GetenvRuntime] returns [RuntimeDockerd] when
    [LAVA_RUNTIME] is empty or not set and otherwise what [ParseRuntime]
    reads from it; [UnmarshalText] changes the runtime only when it
    returns no error, and then to what [ParseRuntime] reads. *)
Theorem runtime_names :
  (forall r, exists s,
     ParseRuntime s = Ok r /\ forall s', ParseRuntime s' = Ok r -> s' = s)
  /\ (forall getenv r,
        GetenvRuntime getenv = Ok r <->
        (getenv "LAVA_RUNTIME" = "" /\ r = RuntimeDockerd)
        \/ ParseRuntime (getenv "LAVA_RUNTIME") = Ok r)
  /\ (forall r text,
        ((UnmarshalText r text).2 = None ->
         ParseRuntime text = Ok (UnmarshalText r text).1)
        /\ ((UnmarshalText r text).2 ≠ None -> (UnmarshalText r text).1 = r)).
Proof.
  split; [|split].
  - assert (Huniq : forall r s s',
              ParseRuntime s = Ok r -> ParseRuntime s' = Ok r -> s' = s).
    { intros r s s'. unfold ParseRuntime.
      destruct (runtimeNames !! s) as [r1|] eqn:Hs; [|done].
      destruct (runtimeNames !! s') as [r2|] eqn:Hs'; [|done].
      intros [= ->] [= ->].
      apply runtimeNames_lookup in Hs, Hs'.
      repeat (apply elem_of_cons in Hs as [[= -> ->]|Hs]);
        [..|by apply elem_of_nil in Hs];
        repeat (apply elem_of_cons in Hs' as [[= ->]|Hs']); try done;
        by apply elem_of_nil in Hs'. }
    intros [| | |];
      [exists "Dockerd"|exists "DockerdDockerDesktop"
      |exists "DockerdRancherDesktop"|exists "DockerdPodmanDesktop"];
      (split; [reflexivity|]); intros s' Hs';
      (eapply Huniq; [reflexivity|exact Hs']).
  - intros getenv r. unfold GetenvRuntime.
    destruct (String.eqb_spec (getenv "LAVA_RUNTIME") "") as [Hempty|Hset].
    + split.
      * intros [= <-]. by left.
      * intros [[_ ->]|Hparse]; [done|]. rewrite Hempty in Hparse. discriminate.
    + destruct (ParseRuntime (getenv "LAVA_RUNTIME")) as [r'|e].
      * split; [intros [= ->]; by right|]. by intros [[? _]|?].
      * split; [done|]. by intros [[? _]|?].
  - intros r text. unfold UnmarshalText.
    by destruct (ParseRuntime text).
Qed.

Section client.
Context `{NetAPI} `{EngineAPI}.

(** X16: what depends on the runtime.  For every runtime but
    [RuntimeDockerd] no host mapping is needed, and the address of the
    interface is [127.0.0.1], obtained without asking the engine; for
    [RuntimeDockerd] the mapping is that of the gateway hostname to
    [host-gateway].  The gateway hostname is [host.containers.internal]
    for Podman Desktop only, and the host of the daemon is the one of the
    client for every runtime but Docker Desktop. *)
Theorem host_gateway_by_runtime cli w :
  (rt cli ≠ RuntimeDockerd ->
     HostGatewayMapping cli = ""
     /\ HostGatewayInterfaceAddr cli w = (Ok "127.0.0.1", w))
  /\ (rt cli = RuntimeDockerd ->
        HostGatewayMapping cli = "host.docker.internal:host-gateway")
  /\ (HostGatewayHostname cli = "host.containers.internal"
      <-> rt cli = RuntimeDockerdPodmanDesktop)
  /\ (rt cli ≠ RuntimeDockerdDockerDesktop ->
        DaemonHost cli = APIClient_DaemonHost cli).
Proof.
  unfold HostGatewayMapping, HostGatewayInterfaceAddr, HostGatewayHostname, DaemonHost.
  split; [|split; [|split]].
  - intros Hrt. by rewrite (bool_decide_eq_false_2 _ Hrt).
  - intros Hrt. rewrite Hrt. done.
  - destruct (decide (rt cli = RuntimeDockerdPodmanDesktop)) as [Hrt|Hrt].
    + by rewrite (bool_decide_eq_true_2 _ Hrt).
    + by rewrite (bool_decide_eq_false_2 _ Hrt).
  - intros Hrt. rewrite (bool_decide_eq_false_2 _ Hrt).
    by destruct (url_Parse _).
Qed.

(** The loop of [gateways] adds one gateway per configuration, in
    order, and fails at the first configuration that gives none. *)
Lemma gateways_loop_Ok configs gws0 res :
  gateways_loop configs gws0 = Ok res <->
  exists gws, Forall2 gateway_of configs gws /\ res = gws0 ++ gws.
Proof.
  revert gws0. induction configs as [|cfg rest IH]; intros gws0.
  - simpl. split.
    + intros [= <-]. exists []. split; [constructor|by rewrite app_nil_r].
    + intros (gws & Hall & ->). apply Forall2_nil_inv_l in Hall as ->.
      by rewrite app_nil_r.
  - cbn [gateways_loop]. split.
    + destruct (net_ParseCIDR (Subnet cfg)) as [[subnet_ip subnet_mask]|] eqn:Hcidr;
        [|done].
      destruct (net_ParseIP (Gateway cfg)) as [ip|] eqn:Hip; [|done].
      destruct (net_Contains subnet_ip subnet_mask ip) eqn:Hin; [|done].
      cbn [negb]. intros (gws & Hall & ->)%IH.
      exists (mkIPNet ip subnet_mask :: gws). split.
      * constructor; [|done]. by exists subnet_ip, subnet_mask, ip.
      * by rewrite <- app_assoc.
    + intros (gws & Hall & ->).
      apply Forall2_cons_inv_l in Hall
        as (gw & gws' & (subnet_ip & subnet_mask & ip & Hcidr & Hip & Hin & ->) & Hall & ->).
      rewrite Hcidr, Hip, Hin. cbn [negb]. apply IH.
      exists gws'. split; [done|]. by rewrite <- app_assoc.
Qed.

(** X17: [gateways] returns a list exactly when the engine returns the
    configurations of the network and every one of them has a subnet
    that parses, a gateway address that parses and lies in the subnet;
    the list then has, for each configuration and in their order, that
    address with the mask of the subnet. *)
Theorem gateways_of_configurations network w gws w' :
  gateways network w = (Ok gws, w') <->
  exists configs,
    NetworkInspect network w = (Ok configs, w')
    /\ Forall2 gateway_of configs gws.
Proof.
  unfold gateways. destruct (NetworkInspect network w) as [[configs|e] w1]; split.
  - intros [= Hloop <-]. apply gateways_loop_Ok in Hloop as (gws' & Hall & ->).
    by exists configs.
  - intros (configs' & [= <- <-] & Hall). f_equal. apply gateways_loop_Ok. by exists gws.
  - done.
  - by intros (configs' & [=] & _).
Qed.

(** X18: for [RuntimeDockerd], [HostGatewayInterfaceAddr] returns an
    address exactly when the default bridge network has one
    configuration and only one and that configuration gives a gateway;
    the address is the text of that gateway. *)
Theorem HostGatewayInterfaceAddr_one_gateway cli w addr w' :
  rt cli = RuntimeDockerd ->
  HostGatewayInterfaceAddr cli w = (Ok addr, w') <->
  exists cfg gw,
    NetworkInspect "bridge" w = (Ok [cfg], w')
    /\ gateway_of cfg gw
    /\ addr = IP_String (IPNet_IP gw).
Proof.
  intros Hrt. unfold HostGatewayInterfaceAddr, bridgeGateway, gateways,
    defaultDockerBridgeNetwork.
  rewrite Hrt. cbn [bool_decide decide_rel]. rewrite bool_decide_eq_true_2 by done.
  destruct (NetworkInspect "bridge" w) as [[configs|e] w1]; split.
  - destruct (gateways_loop configs []) as [[|gw [|gw' gws]]|e] eqn:Hloop; try done.
    intros [= <- <-]. apply gateways_loop_Ok in Hloop as (gws' & Hall & Heq).
    cbn [app] in Heq. subst gws'.
    apply Forall2_cons_inv_r in Hall as (cfg & rest & Hgw & Hrest & ->).
    apply Forall2_nil_inv_r in Hrest as ->. by exists cfg, gw.
  - intros (cfg & gw & [= -> ->] & Hgw & ->).
    assert (Hloop : gateways_loop [cfg] [] = Ok [gw]).
    { apply gateways_loop_Ok. exists [gw]. split; [|done]. by repeat constructor. }
    by rewrite Hloop.
  - done.
  - by intros (cfg & gw & [=] & _).
Qed.

Lemma readDockerOutput_loop_closed to_read lines final :
  readDockerOutput_loop to_read lines final =
    match first_failure to_read with
    | Some err => ([], Some err)
    | None => (lines ++ to_read, final)
    end.
Proof.
  revert lines. induction to_read as [|line rest IH]; intros lines.
  - simpl. by rewrite app_nil_r.
  - cbn [readDockerOutput_loop first_failure].
    destruct (parseDockerAPIResultLine line) as [msg|e]; [|done].
    destruct (ErrorDetail msg); [done|]. rewrite IH.
    destruct (first_failure rest); [done|]. by rewrite <- app_assoc.
Qed.

(** X19: [readDockerOutput] returns all the lines that end with a
    newline, in order, with the error that ended the reading (none for
    the end of the stream), unless one of these lines does not decode or
    carries an error detail: then it returns no line and the error of the
    first such line.  What follows the last newline is neither returned
    nor looked at. *)
Theorem readDockerOutput_lines r :
  readDockerOutput r =
    match first_failure (complete_lines r) with
    | Some err => ([], Some err)
    | None => (complete_lines r, end_err r)
    end
  /\ forall text,
       readDockerOutput (mkReader (complete_lines r) text (end_err r))
       = readDockerOutput r.
Proof.
  unfold readDockerOutput. split; [|done].
  rewrite readDockerOutput_loop_closed. cbn [app]. by destruct (first_failure _).
Qed.

(** X20: [BuildImage] returns no error exactly when the engine accepts
    the request, every complete line of its answer decodes without
    error detail and the answer ends with the end of the stream; when a
    line fails the log returned is empty; the state of the engine is the
    one [ImageBuild] leaves. *)
Theorem BuildImage_error tarFile tags labels w :
  let res := BuildImage tarFile tags labels w in
  (res.1.2 = None <->
   exists body,
     (ImageBuild tarFile tags labels w).1 = Ok body
     /\ first_failure (complete_lines body) = None
     /\ end_err body = None)
  /\ (forall body,
        (ImageBuild tarFile tags labels w).1 = Ok body ->
        is_Some (first_failure (complete_lines body)) ->
        res.1.1 = "")
  /\ res.2 = (ImageBuild tarFile tags labels w).2.
Proof.
  cbv zeta. unfold BuildImage.
  destruct (ImageBuild tarFile tags labels w) as [[body|e] w1]; cbn [fst snd].
  - unfold readDockerOutput. rewrite readDockerOutput_loop_closed.
    destruct (first_failure (complete_lines body)) as [e|] eqn:Hfail; cbn [fst snd app].
    + split; [|split; [done|done]]. split; [done|].
      intros (body' & [= <-] & Hnone & _). congruence.
    + split; [|split; [|done]].
      * split; [intros Hend; by exists body|]. by intros (body' & [= <-] & _ & Hend).
      * intros body' [= <-] [e He]. congruence.
  - split; [|split; [done|done]]. split; [done|]. by intros (body & [=] & _).
Qed.

End client.

Section bridge.
Context `{NetAPI} `{EngineAPI}.

(** X21: [bridgeHost] does not ask the engine when the addresses of the
    interfaces cannot be listed.  When they can, and the bridge has one
    gateway, the host is [127.0.0.1] if the text of the gateway is the
    address of no interface; otherwise the engine is asked a second time
    and the host is the address of the gateway of the second answer. *)
Theorem bridgeHost_cases w :
  (forall err,
     Dockerutil.bridgeHost (Err err) w
     = (Err (ErrWrap "detect Docker Desktop" (ErrWrap "interface addrs" err)), w))
  /\ (forall addrs gw w1,
        bridgeGateway w = (Ok gw, w1) ->
        (IPNet_String (IPNet_IP gw) (IPNet_Mask gw) ∉ addrs ->
           Dockerutil.bridgeHost (Ok addrs) w = (Ok "127.0.0.1", w1))
        /\ (IPNet_String (IPNet_IP gw) (IPNet_Mask gw) ∈ addrs ->
              Dockerutil.bridgeHost (Ok addrs) w =
                match bridgeGateway w1 with
                | (Ok gw2, w2) => (Ok (IP_String (IPNet_IP gw2)), w2)
                | (Err err, w2) => (Err (ErrWrap "get bridge gateway" err), w2)
                end)).
Proof.
  unfold Dockerutil.bridgeHost, Dockerutil.isDockerDesktop. split; [done|].
  intros addrs gw w1 ->.
  assert (Hex : existsb (String.eqb (IPNet_String (IPNet_IP gw) (IPNet_Mask gw))) addrs
                = true <-> IPNet_String (IPNet_IP gw) (IPNet_Mask gw) ∈ addrs).
  { rewrite existsb_exists. split.
    - intros (a & Hin & ->%String.eqb_eq). by apply list_elem_of_In.
    - intros Hin. eexists. split; [by apply list_elem_of_In|]. apply String.eqb_refl. }
  split.
  - intros Hnot. destruct (existsb _ addrs); [|done]. exfalso. by apply Hnot, Hex.
  - intros Hin. apply Hex in Hin. rewrite Hin. cbn [negb].
    by destruct (bridgeGateway w1) as [[gw2|e] w2].
Qed.

End bridge.

(** An instance of X16: Docker Desktop. *)
Lemma host_gateway_by_runtime_witness :
  @HostGatewayInterfaceAddr MoreFixtures.net_api MoreFixtures.engine_api
    MoreFixtures.desktop_client 0
  = (Ok "127.0.0.1", 0).
Proof.
  exact (proj2 (proj1 (@host_gateway_by_runtime MoreFixtures.net_api
           MoreFixtures.engine_api MoreFixtures.desktop_client 0) ltac:(discriminate))).
Defined.

(** An instance of X18: the bridge of the fixtures. *)
Lemma HostGatewayInterfaceAddr_one_gateway_witness :
  @HostGatewayInterfaceAddr MoreFixtures.net_api MoreFixtures.engine_api
    MoreFixtures.dockerd_client 0
  = (Ok "172.17.0.1", 1).
Proof.
  apply (proj2 (@HostGatewayInterfaceAddr_one_gateway MoreFixtures.net_api
           MoreFixtures.engine_api MoreFixtures.dockerd_client 0 "172.17.0.1" 1
           eq_refl)).
  exists (mkIPAMConfig "172.17.0.0/16" "172.17.0.1"),
         (@mkIPNet MoreFixtures.net_api 2886795265%Z 16%Z).
  split; [reflexivity|]. split; [|reflexivity].
  exists 2886795264%Z, 16%Z, 2886795265%Z. by repeat split.
Defined.

(** An instance of X21: the gateway is the address of an interface. *)
Lemma bridgeHost_cases_witness :
  @Dockerutil.bridgeHost MoreFixtures.net_api MoreFixtures.engine_api
    (Ok ["127.0.0.1/8"; "172.17.0.1/16"]) 0
  = (Ok "172.17.0.1", 2).
Proof.
  refine (proj2 (proj2 (@bridgeHost_cases MoreFixtures.net_api MoreFixtures.engine_api 0)
            ["127.0.0.1/8"; "172.17.0.1/16"]
            (@mkIPNet MoreFixtures.net_api 2886795265%Z 16%Z) 1 eq_refl) _).
  right. left.
Defined.

(** The output of a build of the fixtures: two lines, and a third that
    was cut. *)
Example BuildImage_log :
  @BuildImage MoreFixtures.engine_api [] ["tag"] ∅ 0
  = (("{step 1}" +:+ String "010"%char "{step 2}", None), 0).
Proof. reflexivity. Qed.

End ExtraContainers.
